(** * validate_mermaid.py: a shallow embedding and its verified contract

    The script [skills/mermaid/scripts/validate_mermaid.py] writes a Mermaid
    diagram to a temporary file, runs the mermaid command-line renderer on
    it, filters the renderer's standard error and prints a JSON verdict.

    Modelling conventions.
    - A Python [str] is a Rocq [string]; a character is the code point
      U+0000..U+00FF it denotes (Latin-1).  [str.lower], [str.isspace] are
      Python's, restricted to that range.
    - A Python [dict] is an association list in insertion order, which is
      the order [json.dumps] prints.
    - The operating system (temporary files, the renderer subprocess, file
      deletion, the files and the standard input [main] reads) is an
      explicit oracle [Env]; [validate_diagram] runs in a state and
      exception monad over the set of existing files, the trace of system
      calls and the two local variables read by its [finally] block.
    - Taken for granted: closing a file raises nothing, the standard
      streams accept what is printed, reading standard input raises
      nothing.  The text of a traceback is not modelled. *)

From Stdlib Require Import String Ascii List Bool NArith ZArith Lia.
From stdpp Require Import base decidable gmap strings.
Import ListNotations.

Local Open Scope string_scope.
Local Open Scope list_scope.

(** ** Python string primitives *)

Module PyStr.

(** [ch.isspace()] for a code point below 256. *)
Definition isspace (c : ascii) : bool :=
  let n := N_of_ascii c in
  ((9 <=? n) && (n <=? 13) || (28 <=? n) && (n <=? 32)
   || (n =? 133) || (n =? 160))%N.

(** [ch.lower()] for a code point below 256: A-Z and the accented capitals
    U+00C0..U+00DE, the multiplication sign U+00D7 apart, move up by 32. *)
Definition lower_char (c : ascii) : ascii :=
  let n := N_of_ascii c in
  if ((65 <=? n) && (n <=? 90)
      || (192 <=? n) && (n <=? 222) && negb (n =? 215))%N
  then ascii_of_N (n + 32) else c.

(** [s.lower()] *)
Fixpoint lower (s : string) : string :=
  match s with
  | EmptyString => EmptyString
  | String c s' => String (lower_char c) (lower s')
  end.

(** [s.lstrip()] *)
Fixpoint lstrip (s : string) : string :=
  match s with
  | EmptyString => EmptyString
  | String c s' => if isspace c then lstrip s' else s
  end.

(** [s.rstrip()] *)
Fixpoint rstrip (s : string) : string :=
  match s with
  | EmptyString => EmptyString
  | String c s' =>
      match rstrip s' with
      | EmptyString => if isspace c then EmptyString else String c EmptyString
      | r => String c r
      end
  end.

(** [s.strip()] *)
Definition strip (s : string) : string := rstrip (lstrip s).

(** [s.split(sep)] for a one-character separator: never the empty list. *)
Fixpoint split (sep : ascii) (s : string) : list string :=
  match s with
  | EmptyString => [EmptyString]
  | String c s' =>
      if Ascii.eqb c sep then EmptyString :: split sep s'
      else match split sep s' with
           | h :: t => String c h :: t
           | [] => [String c EmptyString]
           end
  end.

(** [sep.join(l)] for a one-character separator. *)
Fixpoint join (sep : ascii) (l : list string) : string :=
  match l with
  | [] => EmptyString
  | [x] => x
  | x :: t => x +:+ String sep (join sep t)
  end.

(** [s.replace(old, new)] for a one-character [old]. *)
Fixpoint replace (old : ascii) (new : string) (s : string) : string :=
  match s with
  | EmptyString => EmptyString
  | String c s' =>
      if Ascii.eqb c old then new +:+ replace old new s'
      else String c (replace old new s')
  end.

(** [s.startswith(p)] *)
Definition startswith (s p : string) : bool := String.prefix p s.

(** [sub in s] *)
Fixpoint contains (sub s : string) : bool :=
  String.prefix sub s
  || match s with
     | EmptyString => false
     | String _ s' => contains sub s'
     end.

(** [any(k in s for k in keywords)] *)
Definition any_in (keywords : list string) (s : string) : bool :=
  existsb (fun k => contains k s) keywords.

(** Truthiness of a [str]. *)
Definition truthy (s : string) : bool :=
  match s with EmptyString => false | _ => true end.

End PyStr.

Import PyStr.

Definition NL : ascii := "010"%char.

(** ** detect_diagram_type *)

(** The dict literal [type_map]; a dict iterates in insertion order. *)
Definition type_map : list (string * string) :=
  [ ("graph", "flowchart");
    ("flowchart", "flowchart");
    ("sequencediagram", "sequence");
    ("classdiagram", "class");
    ("statediagram", "state");
    ("erdiagram", "er");
    ("gantt", "gantt");
    ("gitgraph", "git-graph");
    ("journey", "user-journey");
    ("pie", "pie");
    ("mindmap", "mindmap");
    ("timeline", "timeline");
    ("quadrantchart", "quadrant") ].

(** [content.strip().split('\n')[0].lower() if content.strip() else ''] *)
Definition first_line (content : string) : string :=
  if truthy (strip content)
  then lower (hd EmptyString (split NL (strip content)))
  else EmptyString.

(** [first_line.replace(' ', '').replace('-', '')] *)
Definition squeeze (line : string) : string :=
  replace "-" "" (replace " " "" line).

(** The [for keyword, diagram_type in type_map.items()] loop. *)
Fixpoint detect_loop (items : list (string * string)) (line : string) : string :=
  match items with
  | [] => "unknown"
  | (keyword, diagram_type) :: rest =>
      if contains keyword (squeeze line) then diagram_type
      else detect_loop rest line
  end.

Definition detect_diagram_type (content : string) : string :=
  detect_loop type_map (first_line content).

(** ** parse_mmdc_errors *)

Definition error_keywords : list string :=
  ["error"; "parse"; "syntax"; "invalid"; "unexpected"].

(** The [for line in stderr.split('\n')] loop, [errors] as accumulator. *)
Fixpoint parse_loop (lines : list string) (errors : list string) : list string :=
  match lines with
  | [] => errors
  | line :: rest =>
      let line_lower := lower line in
      if any_in error_keywords line_lower then
        let clean_error := strip line in
        if truthy clean_error && negb (startswith clean_error "(")
        then parse_loop rest (errors ++ [clean_error])
        else parse_loop rest errors
      else parse_loop rest errors
  end.

Definition parse_mmdc_errors (stderr : string) : list string :=
  let errors := parse_loop (split NL stderr) [] in
  match errors with
  | [] => ["Syntax error in diagram"]
  | _ => errors
  end.

(** ** Python values: the result dict and [json.dumps] *)

Inductive pyval :=
| PBool (b : bool)
| PStr (s : string)
| PList (l : list string).

(** A dict with [str] keys, in insertion order. *)
Definition dict := list (string * pyval).

(** [d[k]]; [None] stands for [KeyError]. *)
Fixpoint dict_get (d : dict) (k : string) : option pyval :=
  match d with
  | [] => None
  | (k', v) :: rest => if String.eqb k' k then Some v else dict_get rest k
  end.

(** [d[k] = v]: an existing key keeps its place, a new one goes last. *)
Fixpoint dict_set (d : dict) (k : string) (v : pyval) : dict :=
  match d with
  | [] => [(k, v)]
  | (k', v') :: rest =>
      if String.eqb k' k then (k', v) :: rest else (k', v') :: dict_set rest k v
  end.

(** Truthiness of a value, as [not result['valid']] tests it. *)
Definition pytruthy (v : pyval) : bool :=
  match v with
  | PBool b => b
  | PStr s => truthy s
  | PList l => match l with [] => false | _ => true end
  end.

Module Json.

Definition DQUOTE : ascii := "034"%char.

Definition hex_digit (n : N) : ascii :=
  ascii_of_N (if (n <? 10)%N then 48 + n else 87 + n).

(** ['\\u{0:04x}'.format(n)] for [n < 256]. *)
Definition u_escape (c : ascii) : string :=
  let n := N_of_ascii c in
  String "\" (String "u" (String "0" (String "0"
    (String (hex_digit (n / 16)) (String (hex_digit (n mod 16)) ""))))).

(** One character under [ensure_ascii=True]: [ESCAPE_DCT], else the
    character itself between space and tilde, else a [\u] escape. *)
Definition escape_char (c : ascii) : string :=
  let n := N_of_ascii c in
  if (n =? 92)%N then String "\" (String "\" "")
  else if (n =? 34)%N then String "\" (String DQUOTE "")
  else if (n =? 8)%N then String "\" "b"
  else if (n =? 12)%N then String "\" "f"
  else if (n =? 10)%N then String "\" "n"
  else if (n =? 13)%N then String "\" "r"
  else if (n =? 9)%N then String "\" "t"
  else if ((32 <=? n) && (n <=? 126))%N then String c ""
  else u_escape c.

Fixpoint escape (s : string) : string :=
  match s with
  | EmptyString => EmptyString
  | String c s' => escape_char c +:+ escape s'
  end.

Definition quote : string := String DQUOTE "".

(** [encode_basestring_ascii] *)
Definition dumps_str (s : string) : string := quote +:+ escape s +:+ quote.

Fixpoint spaces (n : nat) : string :=
  match n with O => "" | S k => String " " (spaces k) end.

(** Items of a container, one per entry: [sep] between two of them. *)
Fixpoint items (sep : string) (l : list string) : string :=
  match l with
  | [] => ""
  | [x] => x
  | x :: t => x +:+ sep +:+ items sep t
  end.

(** A container's text.  [indent = None]: all on one line, [", "] between
    items.  [indent = Some n]: one item per line at depth [level + 1],
    [","] between items; an empty container is just its brackets. *)
Definition container (indent : option nat) (level : nat)
    (opening closing : string) (l : list string) : string :=
  match l with
  | [] => opening +:+ closing
  | _ =>
      match indent with
      | None => opening +:+ items ", " l +:+ closing
      | Some n =>
          let nl := String NL "" in
          let inner := nl +:+ spaces (n * S level) in
          opening +:+ inner +:+ items ("," +:+ inner) l
          +:+ nl +:+ spaces (n * level) +:+ closing
      end
  end.

Definition dumps_val (indent : option nat) (level : nat) (v : pyval) : string :=
  match v with
  | PBool true => "true"
  | PBool false => "false"
  | PStr s => dumps_str s
  | PList l => container indent level "[" "]" (map dumps_str l)
  end.

(** [json.dumps(d)] and [json.dumps(d, indent=n)] for a dict. *)
Definition dumps (indent : option nat) (d : dict) : string :=
  container indent 0 "{" "}"
    (map (fun kv => dumps_str (fst kv) +:+ ": " +:+ dumps_val indent 1 (snd kv)) d).

End Json.

(** ** The operating system as an oracle *)

(** The exception classes the script can meet.  All but
    [KeyboardInterrupt] derive from [Exception]. *)
Inductive exn_class :=
| TimeoutExpired
| FileNotFoundError
| PermissionError
| OSError
| UnicodeEncodeError
| KeyError
| KeyboardInterrupt.

Definition is_Exception (c : exn_class) : bool :=
  match c with KeyboardInterrupt => false | _ => true end.

(** An exception object: its class and [str(e)]. *)
Record exn := Exn { class_of : exn_class; str_of : string }.

(** [subprocess.CompletedProcess] *)
Record CompletedProcess :=
  { returncode : Z; stdout : string; stderr : string }.

(** What the child does once [subprocess.run] is asked to start it. *)
Inductive behaviour :=
| Raises (e : exn)          (* the call raises [e]: no npx on the PATH, ... *)
| Finishes (millis : N) (r : CompletedProcess)      (* exits after [millis] *)
| Hangs.                                            (* never exits *)

Record Env := {
  (* the name [tempfile.NamedTemporaryFile(suffix=..)] opens, or the error *)
  tempname : string -> string + exn;
  (* the error, if any, of [f.write(data)] on the file named [path] *)
  write_error : string -> string -> option exn;
  (* the child started by an argument vector *)
  spawn : list string -> behaviour;
  (* the files left once that child has run *)
  spawn_files : list string -> gset string -> gset string;
  (* the error, other than a missing file, of unlinking an existing path *)
  unlink_error : string -> option exn;
  (* [sys.stdin.read()] *)
  stdin_text : string;
  (* [open(path, 'r')] followed by [f.read()] *)
  read_file : string -> string + exn
}.

(** The system calls a run leaves behind, oldest first. *)
Inductive event :=
| EvCreate (path : string)
| EvWrite (path data : string)
| EvRun (argv : list string) (timeout : N)
| EvUnlink (path : string).

(** The world outside the process. *)
Record world := { files : gset string; trace : list event }.

(** The frame of one [validate_diagram] call: the world and the locals the
    [finally] block reads. *)
Record frame := {
  the_world : world;
  temp_input : option string;
  temp_output : option string
}.

(** State that survives an exception, and a value or the exception. *)
Definition M (A : Type) : Type := frame -> (A + exn) * frame.

Definition ret {A} (a : A) : M A := fun s => (inl a, s).
Definition raise {A} (e : exn) : M A := fun s => (inr e, s).
Definition bind {A B} (m : M A) (k : A -> M B) : M B :=
  fun s => match m s with
           | (inl a, s') => k a s'
           | (inr e, s') => (inr e, s')
           end.

Notation "x <- m ;; k" := (bind m (fun x => k))
  (at level 100, m at next level, right associativity).
Notation "m ;;; k" := (bind m (fun _ => k))
  (at level 100, right associativity).

(** [try: body  except ...: handler] *)
Definition try_except {A} (body : M A) (handler : exn -> M A) : M A :=
  fun s => match body s with
           | (inl a, s') => (inl a, s')
           | (inr e, s') => handler e s'
           end.

(** [try: body  finally: final]: an exception of [final] replaces the
    outcome of [body]. *)
Definition try_finally {A} (body : M A) (final : M unit) : M A :=
  fun s => match body s with
           | (r, s') =>
               match final s' with
               | (inl _, s'') => (r, s'')
               | (inr e, s'') => (inr e, s'')
               end
           end.

Definition on_world (f : world -> world) : M unit :=
  fun s => (inl tt, {| the_world := f (the_world s);
                       temp_input := temp_input s;
                       temp_output := temp_output s |}).

Definition log (ev : event) (w : world) : world :=
  {| files := files w; trace := trace w ++ [ev] |}.

Definition set_files (fs : gset string) (w : world) : world :=
  {| files := fs; trace := trace w |}.

Definition set_temp_input (p : string) : M unit :=
  fun s => (inl tt, {| the_world := the_world s;
                       temp_input := Some p;
                       temp_output := temp_output s |}).

Definition set_temp_output (p : string) : M unit :=
  fun s => (inl tt, {| the_world := the_world s;
                       temp_input := temp_input s;
                       temp_output := Some p |}).

Section System.

Variable env : Env.

(** [tempfile.NamedTemporaryFile(suffix=suffix, delete=False)]: the file
    exists from here on and outlives its [with] block. *)
Definition NamedTemporaryFile (suffix : string) : M string :=
  match tempname env suffix with
  | inl name =>
      on_world (fun w => log (EvCreate name) (set_files ({[name]} ∪ files w) w)) ;;;
      ret name
  | inr e => raise e
  end.

(** [f.write(data)] *)
Definition write (name data : string) : M unit :=
  on_world (log (EvWrite name data)) ;;;
  match write_error env name data with
  | Some e => raise e
  | None => ret tt
  end.

(** [subprocess.run(argv, capture_output=True, text=True, timeout=seconds)].
    The handlers never read the message of [TimeoutExpired]; it is
    abridged here. *)
Definition subprocess_run (argv : list string) (seconds : N) : M CompletedProcess :=
  on_world (log (EvRun argv seconds)) ;;;
  match spawn env argv with
  | Raises e => raise e
  | Finishes millis r =>
      on_world (fun w => set_files (spawn_files env argv (files w)) w) ;;;
      if (seconds * 1000 <? millis)%N
      then raise (Exn TimeoutExpired "timed out")
      else ret r
  | Hangs =>
      on_world (fun w => set_files (spawn_files env argv (files w)) w) ;;;
      raise (Exn TimeoutExpired "timed out")
  end.

(** [Path(p).unlink(missing_ok=True)]: a missing file is not an error, any
    other failure raises. *)
Definition unlink_missing_ok (p : string) : M unit :=
  on_world (log (EvUnlink p)) ;;;
  fun s =>
    if decide (p ∈ files (the_world s)) then
      match unlink_error env p with
      | Some e => raise e s
      | None => on_world (fun w => set_files (files w ∖ {[p]}) w) s
      end
    else ret tt s.

(** ** validate_diagram *)

Definition result_dict (valid : bool) (errors : list string)
    (diagram_type : string) : dict :=
  [ ("valid", PBool valid);
    ("errors", PList errors);
    ("warnings", PList []);
    ("diagram_type", PStr diagram_type) ].

(** The command line: mmdc through npx, no installation needed. *)
Definition mmdc_argv (temp_input temp_output : string) : list string :=
  ["npx"; "-y"; "@mermaid-js/mermaid-cli@latest";
   "-i"; temp_input; "-o"; temp_output].

(** The body of the [try] block.  The [with] blocks close their file on
    the way out; closing is not modelled. *)
Definition try_body (content : string) : M dict :=
  f <- NamedTemporaryFile ".mmd" ;;
  write f content ;;;
  set_temp_input f ;;;
  g <- NamedTemporaryFile ".svg" ;;
  set_temp_output g ;;;
  result <- subprocess_run (mmdc_argv f g) 10 ;;
  let validation :=
    result_dict (returncode result =? 0)%Z [] (detect_diagram_type content) in
  let validation :=
    if negb (returncode result =? 0)%Z
    then dict_set validation "errors" (PList (parse_mmdc_errors (stderr result)))
    else validation in
  ret validation.

(** The three [except] clauses, in order. *)
Definition handlers (content : string) (e : exn) : M dict :=
  match class_of e with
  | TimeoutExpired =>
      ret (result_dict false
             ["Validation timeout (diagram too complex or infinite loop)"]
             (detect_diagram_type content))
  | FileNotFoundError =>
      ret (result_dict false
             ["mermaid-cli not available - npx command not found"]
             (detect_diagram_type content))
  | c =>
      if is_Exception c
      then ret (result_dict false ["Validation error: " +:+ str_of e]
                  (detect_diagram_type content))
      else raise e
  end.

(** [if temp: Path(temp).unlink(missing_ok=True)] for a local [temp]. *)
Definition unlink_if_set (temp : option string) : M unit :=
  match temp with
  | Some p => if truthy p then unlink_missing_ok p else ret tt
  | None => ret tt
  end.

(** The [finally] block. *)
Definition cleanup : M unit :=
  (fun s => unlink_if_set (temp_input s) s) ;;;
  (fun s => unlink_if_set (temp_output s) s).

(** The [try] block with its [except] clauses. *)
Definition attempt (content : string) : M dict :=
  try_except (try_body content) (handlers content).

(** The frame on entry: both locals are [None]. *)
Definition enter (w : world) : frame :=
  {| the_world := w; temp_input := None; temp_output := None |}.

Definition validate_diagram (content : string) (w : world)
    : (dict + exn) * world :=
  if negb (truthy content) || negb (truthy (strip content)) then
    (inl (result_dict false ["Empty diagram content"] "unknown"), w)
  else
    match try_finally (attempt content) cleanup (enter w) with
    | (r, s) => (r, the_world s)
    end.

(** ** main *)

(** How the interpreter ends: [sys.exit(code)], or an uncaught exception
    and its traceback. *)
Inductive termination :=
| Exit (code : Z)
| Traceback (e : exn).

Record process := {
  out : string;          (* everything printed to standard output *)
  err : string;          (* everything printed to standard error *)
  status : termination
}.

(** The text [print(s)] appends to its stream. *)
Definition print (s : string) : string := s +:+ String NL "".

Definition usage : string :=
  print "Usage: validate_mermaid.py <diagram.mmd>" +:+
  print "       echo 'graph TD; A-->B' | validate_mermaid.py --stdin".

(** Lines 180-189: validate, print, exit. *)
Definition report (content : string) (w : world) : process * world :=
  match validate_diagram content w with
  | (inl result, w') =>
      let printed := print (Json.dumps (Some 2) result) in
      match dict_get result "valid" with
      | Some v =>
          ({| out := printed; err := "";
              status := if negb (pytruthy v) then Exit 1 else Exit 0 |}, w')
      | None =>
          ({| out := printed; err := "";
              status := Traceback (Exn KeyError "'valid'") |}, w')
      end
  | (inr e, w') => ({| out := ""; err := ""; status := Traceback e |}, w')
  end.

(** Lines 151-178: the content to validate, or the process's early end. *)
Definition parse_arguments (argv : list string) : string + process :=
  match argv with
  | _ :: arg :: _ =>
      if String.eqb arg "--stdin" then inl (stdin_text env)
      else
        match read_file env arg with
        | inl content => inl content
        | inr e =>
            match class_of e with
            | FileNotFoundError =>
                inr {| out := "";
                       err := print (Json.dumps None
                                (result_dict false ["File not found: " +:+ arg]
                                   "unknown"));
                       status := Exit 2 |}
            | c =>
                if is_Exception c then
                  inr {| out := "";
                         err := print (Json.dumps None
                                  (result_dict false
                                     ["Error reading file: " +:+ str_of e]
                                     "unknown"));
                         status := Exit 2 |}
                else inr {| out := ""; err := ""; status := Traceback e |}
            end
        end
  | _ => inr {| out := ""; err := usage; status := Exit 2 |}
  end.

Definition main (argv : list string) (w : world) : process * world :=
  match parse_arguments argv with
  | inl content => report content w
  | inr early => (early, w)
  end.

End System.

(** ** The contract, in the words of the specification *)

(** A string of whitespace only, and a string with no whitespace at all. *)
Fixpoint all_space (s : string) : bool :=
  match s with
  | EmptyString => true
  | String c s' => isspace c && all_space s'
  end.

Fixpoint no_space (s : string) : bool :=
  match s with
  | EmptyString => true
  | String c s' => negb (isspace c) && no_space s'
  end.

(** A string that is a single line. *)
Fixpoint no_NL (s : string) : bool :=
  match s with
  | EmptyString => true
  | String c s' => negb (Ascii.eqb c NL) && no_NL s'
  end.

(** A keyword of either table: not empty, no whitespace in it. *)
Definition keyword_ok (k : string) : bool := truthy k && no_space k.

(** The first non-empty line of a text: the first of its lines that holds
    more than whitespace. *)
Definition first_nonblank_line (content : string) : option string :=
  List.find (fun l => negb (all_space l)) (split NL content).

(** The line as the detector compares it: lowercased, spaces and hyphens
    removed. *)
Definition normalized (line : string) : string := squeeze (lower line).

(** A line the extractor keeps: not empty once trimmed, one of the keywords
    in its lowercased form, no opening parenthesis first once trimmed. *)
Definition qualifies (line : string) : bool :=
  truthy (strip line)
  && any_in error_keywords (lower line)
  && negb (startswith (strip line) "(").

(** The qualifying lines, trimmed, in input order. *)
Definition extracted (stderr : string) : list string :=
  map strip (List.filter qualifies (split NL stderr)).

(** The extractor as the specification words it. *)
Definition parse_mmdc_errors_spec (stderr : string) : list string :=
  match extracted stderr with
  | [] => ["Syntax error in diagram"]
  | l => l
  end.

(** The extractor's contract, stated without the extractor's own tests.
    [k] occurs in [s]: some text, then [k], then some text. *)
Definition occurs (k s : string) : Prop :=
  exists pre post, s = pre +:+ k +:+ post.

(** The lowercased line holds one of the five words. *)
Definition mentions_error (line : string) : Prop :=
  occurs "error" (lower line)
  \/ occurs "parse" (lower line)
  \/ occurs "syntax" (lower line)
  \/ occurs "invalid" (lower line)
  \/ occurs "unexpected" (lower line).

(** A line to report: not empty once trimmed, holding one of the five
    words, and not starting, once trimmed, with an opening parenthesis. *)
Definition reportable (line : string) : Prop :=
  strip line <> EmptyString
  /\ mentions_error line
  /\ forall rest, strip line <> String "(" rest.

(** [reported lines out]: [out] is, in the order of [lines], the trimmed
    form of each reportable line and nothing else. *)
Inductive reported : list string -> list string -> Prop :=
| reported_nil : reported [] []
| reported_keep line lines out :
    reportable line -> reported lines out ->
    reported (line :: lines) (strip line :: out)
| reported_skip line lines out :
    ~ reportable line -> reported lines out ->
    reported (line :: lines) out.

(** The child outlives the time [subprocess.run] allows it. *)
Definition exceeds (seconds : N) (b : behaviour) : bool :=
  match b with
  | Raises _ => false
  | Finishes millis _ => (seconds * 1000 <? millis)%N
  | Hangs => true
  end.

(** The files a run created: the [EvCreate] events it added to the trace. *)
Definition created (before after : world) (p : string) : Prop :=
  In (EvCreate p) (drop (length (trace before)) (trace after)).

(** The path the [finally] block unlinks for a local variable. *)
Definition doomed (temp : option string) : gset string :=
  match temp with
  | Some p => if truthy p then {[p]} else ∅
  | None => ∅
  end.

(** ** Sample runs *)

Definition empty_world : world := {| files := ∅; trace := [] |}.

(** A healthy machine: temporary files get a name, the renderer accepts
    the diagram within a second. *)
Definition env_ok : Env := {|
  tempname := fun suffix => inl ("/tmp/tmpk3x9" +:+ suffix);
  write_error := fun _ _ => None;
  spawn := fun _ => Finishes 900 {| returncode := 0; stdout := ""; stderr := "" |};
  spawn_files := fun _ fs => fs;
  unlink_error := fun _ => None;
  stdin_text := "graph TD" +:+ String NL "A-->B";
  read_file := fun _ => inr (Exn FileNotFoundError "No such file or directory")
|}.

(** The renderer rejects the diagram. *)
Definition env_rejects : Env := {|
  tempname := tempname env_ok;
  write_error := write_error env_ok;
  spawn := fun _ => Finishes 900
             {| returncode := 1; stdout := "";
                stderr := "Error: Parse error on line 2:" +:+ String NL "  (at node)" |};
  spawn_files := spawn_files env_ok;
  unlink_error := unlink_error env_ok;
  stdin_text := "graph TD" +:+ String NL "A--";
  read_file := read_file env_ok
|}.

(** No npx on the PATH: starting the renderer raises FileNotFoundError. *)
Definition env_no_npx : Env := {|
  tempname := tempname env_ok;
  write_error := write_error env_ok;
  spawn := fun _ => Raises (Exn FileNotFoundError "No such file or directory: 'npx'");
  spawn_files := spawn_files env_ok;
  unlink_error := unlink_error env_ok;
  stdin_text := stdin_text env_ok;
  read_file := read_file env_ok
|}.

(** The renderer never exits. *)
Definition env_hangs : Env := {|
  tempname := tempname env_ok;
  write_error := write_error env_ok;
  spawn := fun _ => Hangs;
  spawn_files := spawn_files env_ok;
  unlink_error := unlink_error env_ok;
  stdin_text := stdin_text env_ok;
  read_file := read_file env_ok
|}.

(** The renderer never exits and the input file cannot be deleted. *)
Definition env_locked : Env := {|
  tempname := tempname env_ok;
  write_error := write_error env_ok;
  spawn := fun _ => Hangs;
  spawn_files := spawn_files env_ok;
  unlink_error := fun p =>
    if String.eqb p "/tmp/tmpk3x9.mmd"
    then Some (Exn PermissionError "Permission denied: '/tmp/tmpk3x9.mmd'")
    else None;
  stdin_text := stdin_text env_ok;
  read_file := read_file env_ok
|}.

(** The content cannot be encoded for the input file: [f.write] raises. *)
Definition env_unwritable : Env := {|
  tempname := tempname env_ok;
  write_error := fun _ _ =>
    Some (Exn UnicodeEncodeError "codec can't encode character");
  spawn := spawn env_ok;
  spawn_files := spawn_files env_ok;
  unlink_error := unlink_error env_ok;
  stdin_text := stdin_text env_ok;
  read_file := read_file env_ok
|}.

(** ** Further notions *)

(** The system calls a run added to the trace. *)
Definition new_events (before after : world) : list event :=
  drop (length (trace before)) (trace after).

Definition is_run (ev : event) : bool :=
  match ev with EvRun _ _ => true | _ => false end.

Definition is_unlink (ev : event) : bool :=
  match ev with EvUnlink _ => true | _ => false end.

(** The names the detector can answer. *)
Definition diagram_types : list string :=
  ["flowchart"; "sequence"; "class"; "state"; "er"; "gantt"; "user-journey";
   "pie"; "mindmap"; "timeline"; "quadrant"; "unknown"].

(** A text with Windows line ends: a carriage return before each newline. *)
Definition CR : ascii := "013"%char.

Definition crlf (s : string) : string :=
  replace NL (String CR (String NL EmptyString)) s.

(** A line and the same line with whitespace after it. *)
Definition padded (x y : string) : Prop :=
  exists w, all_space w = true /\ y = x +:+ w.

(** A character of printed output: printable ASCII or a newline. *)
Definition plain_char (c : ascii) : bool :=
  let n := N_of_ascii c in
  ((32 <=? n) && (n <=? 126) || (n =? 10))%N.

Fixpoint plain_text (s : string) : bool :=
  match s with
  | EmptyString => true
  | String c s' => plain_char c && plain_text s'
  end.

(** The renderer is interrupted from the keyboard. *)
Definition env_interrupted : Env := {|
  tempname := tempname env_ok;
  write_error := write_error env_ok;
  spawn := fun _ => Raises (Exn KeyboardInterrupt "");
  spawn_files := spawn_files env_ok;
  unlink_error := unlink_error env_ok;
  stdin_text := stdin_text env_ok;
  read_file := read_file env_ok
|}.

(** Starting the renderer fails for a reason of the system's. *)
Definition env_broken : Env := {|
  tempname := tempname env_ok;
  write_error := write_error env_ok;
  spawn := fun _ => Raises (Exn OSError "Exec format error: 'npx'");
  spawn_files := spawn_files env_ok;
  unlink_error := unlink_error env_ok;
  stdin_text := stdin_text env_ok;
  read_file := fun _ => inr (Exn PermissionError "Permission denied: 'd.mmd'")
|}.

(** * Proofs *)

(** ** Characters *)

Lemma isspace_lower_char c : isspace (lower_char c) = isspace c.
Proof. destruct c as [[] [] [] [] [] [] [] []]; reflexivity. Qed.



Lemma isspace_NL c : Ascii.eqb c NL = true -> isspace c = true.
Proof. intros H. apply Ascii.eqb_eq in H. subst c. reflexivity. Qed.

(** ** Concatenation *)

Lemma sapp_nil s : EmptyString +:+ s = s.
Proof. reflexivity. Qed.

Lemma sapp_cons c s t : String c s +:+ t = String c (s +:+ t).
Proof. reflexivity. Qed.

Lemma sapp_nil_r s : s +:+ EmptyString = s.
Proof. induction s as [|c s IH]; [reflexivity|]. now rewrite sapp_cons, IH. Qed.

Lemma sapp_assoc s t u : (s +:+ t) +:+ u = s +:+ (t +:+ u).
Proof. induction s as [|c s IH]; [reflexivity|]. now rewrite !sapp_cons, IH. Qed.

Ltac sapp := rewrite ?sapp_cons, ?sapp_nil in *.

(** ** Trimming *)

Lemma lstrip_all_space s : all_space s = true -> lstrip s = EmptyString.
Proof.
  induction s as [|c s IH]; simpl; [reflexivity|].
  intros H. apply andb_true_iff in H as [Hc Hs]. rewrite Hc. auto.
Qed.

Lemma rstrip_empty s : rstrip s = EmptyString -> all_space s = true.
Proof.
  induction s as [|c s IH]; simpl; [reflexivity|].
  destruct (rstrip s) eqn:E; [|discriminate].
  destruct (isspace c); [|discriminate]. intros _. simpl. auto.
Qed.

Lemma all_space_lstrip s : all_space (lstrip s) = all_space s.
Proof.
  induction s as [|c s IH]; simpl; [reflexivity|].
  destruct (isspace c) eqn:E; simpl; [exact IH | now rewrite E].
Qed.

Lemma strip_all_space s : all_space s = true -> strip s = EmptyString.
Proof. intros H. unfold strip. now rewrite (lstrip_all_space s H). Qed.

Lemma strip_empty s : strip s = EmptyString -> all_space s = true.
Proof.
  unfold strip. intros H. apply rstrip_empty in H.
  now rewrite all_space_lstrip in H.
Qed.

Lemma truthy_strip s : truthy (strip s) = negb (all_space s).
Proof.
  destruct (all_space s) eqn:E.
  - now rewrite (strip_all_space s E).
  - destruct (strip s) eqn:F; [|reflexivity].
    apply strip_empty in F. congruence.
Qed.

(** A string is its right-trimmed part followed by whitespace. *)
Lemma rstrip_split s : exists w, all_space w = true /\ s = rstrip s +:+ w.
Proof.
  induction s as [|c s (w & Hw & IH)]; simpl.
  - exists EmptyString. split; reflexivity.
  - destruct (rstrip s) eqn:E.
    + destruct (isspace c) eqn:Hc.
      * exists (String c s). simpl. split; [|reflexivity].
        rewrite Hc. simpl. rewrite IH. exact Hw.
      * exists w. split; [exact Hw|]. sapp. now f_equal.
    + exists w. split; [exact Hw|]. sapp. now f_equal.
Qed.

(** A string is whitespace followed by its left-trimmed part. *)
Lemma lstrip_split s : exists w, all_space w = true /\ s = w +:+ lstrip s.
Proof.
  induction s as [|c s (w & Hw & IH)]; simpl.
  - exists EmptyString. split; reflexivity.
  - destruct (isspace c) eqn:Hc.
    + exists (String c w). simpl. rewrite Hc, Hw. split; [reflexivity|].
      sapp. now f_equal.
    + exists EmptyString. split; reflexivity.
Qed.

Lemma rstrip_idem s : rstrip (rstrip s) = rstrip s.
Proof.
  induction s as [|c s IH]; simpl; [reflexivity|].
  destruct (rstrip s) eqn:E.
  - destruct (isspace c) eqn:Hc; simpl; [reflexivity | now rewrite Hc].
  - change (rstrip (String c (String a s0)))
      with (match rstrip (String a s0) with
            | EmptyString => if isspace c then EmptyString else String c EmptyString
            | r => String c r end).
    now rewrite IH.
Qed.

Lemma lstrip_rstrip_lstrip s : lstrip (rstrip (lstrip s)) = rstrip (lstrip s).
Proof.
  induction s as [|c s IH]; simpl; [reflexivity|].
  destruct (isspace c) eqn:Hc; [exact IH|].
  simpl. rewrite Hc. destruct (rstrip s); simpl; now rewrite Hc.
Qed.

Lemma strip_idem s : strip (strip s) = strip s.
Proof. unfold strip. now rewrite lstrip_rstrip_lstrip, rstrip_idem. Qed.

(** ** Lowercasing commutes with trimming and splitting *)

Lemma lower_app s t : lower (s +:+ t) = lower s +:+ lower t.
Proof. induction s as [|c s IH]; [reflexivity|]. sapp. simpl. now rewrite IH. Qed.


Lemma all_space_lower s : all_space (lower s) = all_space s.
Proof.
  induction s as [|c s IH]; simpl; [reflexivity|].
  now rewrite isspace_lower_char, IH.
Qed.

Lemma lower_lstrip s : lower (lstrip s) = lstrip (lower s).
Proof.
  induction s as [|c s IH]; simpl; [reflexivity|].
  rewrite isspace_lower_char. now destruct (isspace c).
Qed.

Lemma lower_rstrip s : lower (rstrip s) = rstrip (lower s).
Proof.
  induction s as [|c s IH]; simpl; [reflexivity|].
  rewrite <- IH, isspace_lower_char.
  destruct (rstrip s); simpl; [now destruct (isspace c) | reflexivity].
Qed.

Lemma lower_strip s : lower (strip s) = strip (lower s).
Proof. unfold strip. now rewrite lower_rstrip, lower_lstrip. Qed.

Lemma split_not_nil sep s : split sep s <> [].
Proof.
  destruct s as [|c s]; simpl; [discriminate|].
  destruct (Ascii.eqb c sep); [discriminate|].
  destruct (split sep s); discriminate.
Qed.



(** ** Whitespace next to a keyword *)

Lemma replace_app old new s t :
  replace old new (s +:+ t) = replace old new s +:+ replace old new t.
Proof.
  induction s as [|c s IH]; [reflexivity|]. sapp. simpl.
  destruct (Ascii.eqb c old); rewrite IH; [now rewrite sapp_assoc | reflexivity].
Qed.

Lemma all_space_delete old s :
  all_space s = true -> all_space (replace old "" s) = true.
Proof.
  induction s as [|c s IH]; simpl; [reflexivity|].
  intros H. apply andb_true_iff in H as [Hc Hs].
  destruct (Ascii.eqb c old); sapp; simpl; [auto | rewrite Hc; auto].
Qed.

Lemma normalized_app s t : normalized (s +:+ t) = normalized s +:+ normalized t.
Proof. unfold normalized, squeeze. now rewrite lower_app, !replace_app. Qed.

Lemma all_space_normalized s : all_space s = true -> all_space (normalized s) = true.
Proof.
  intros H. unfold normalized, squeeze.
  do 2 apply all_space_delete. now rewrite all_space_lower.
Qed.

Lemma prefix_cons k ks c s :
  String.prefix (String k ks) (String c s) = Ascii.eqb k c && String.prefix ks s.
Proof.
  simpl. destruct (ascii_dec k c) as [->|Hne].
  - now rewrite Ascii.eqb_refl.
  - apply Ascii.eqb_neq in Hne. now rewrite Hne.
Qed.

Lemma prefix_empty s : String.prefix EmptyString s = true.
Proof. now destruct s. Qed.

Lemma prefix_app_space k x w :
  no_space k = true -> all_space w = true ->
  String.prefix k (x +:+ w) = String.prefix k x.
Proof.
  intros Hk Hw. revert x. induction k as [|c k IH]; intros x;
    [now rewrite !prefix_empty|].
  apply andb_true_iff in Hk as [Hc Hk].
  destruct x as [|a x]; sapp.
  - destruct w as [|b w]; [reflexivity|].
    rewrite prefix_cons. apply andb_true_iff in Hw as [Hb _].
    destruct (Ascii.eqb c b) eqn:E; [|reflexivity].
    apply Ascii.eqb_eq in E. subst b. rewrite Hb in Hc. discriminate.
  - rewrite !prefix_cons. now rewrite IH.
Qed.

Lemma prefix_space_first k c s :
  keyword_ok k = true -> isspace c = true -> String.prefix k (String c s) = false.
Proof.
  intros Hk Hc. destruct k as [|a k]; [discriminate|].
  apply andb_true_iff in Hk as [_ Hk]. apply andb_true_iff in Hk as [Ha _].
  rewrite prefix_cons. destruct (Ascii.eqb a c) eqn:E; [|reflexivity].
  apply Ascii.eqb_eq in E. subst a. rewrite Hc in Ha. discriminate.
Qed.

Lemma contains_app_space_l k w x :
  keyword_ok k = true -> all_space w = true ->
  contains k (w +:+ x) = contains k x.
Proof.
  intros Hk. induction w as [|c w IH]; intros Hw; [reflexivity|].
  apply andb_true_iff in Hw as [Hc Hw]. sapp.
  change (contains k (String c (w +:+ x)))
    with (String.prefix k (String c (w +:+ x)) || contains k (w +:+ x)).
  rewrite (prefix_space_first k c _ Hk Hc). simpl. auto.
Qed.

Lemma contains_app_space_r k x w :
  keyword_ok k = true -> all_space w = true ->
  contains k (x +:+ w) = contains k x.
Proof.
  intros Hk Hw. induction x as [|c x IH]; sapp.
  - rewrite <- (sapp_nil_r w), contains_app_space_l by assumption.
    reflexivity.
  - change (contains k (String c (x +:+ w)))
      with (String.prefix k (String c (x +:+ w)) || contains k (x +:+ w)).
    rewrite IH. rewrite <- sapp_cons, prefix_app_space; [reflexivity| |exact Hw].
    unfold keyword_ok in Hk. now apply andb_true_iff in Hk as [_ Hk].
Qed.

Lemma contains_lstrip k s :
  keyword_ok k = true -> contains k (lstrip s) = contains k s.
Proof.
  intros Hk. destruct (lstrip_split s) as (w & Hw & E).
  rewrite E at 2. now rewrite contains_app_space_l.
Qed.

Lemma contains_rstrip k s :
  keyword_ok k = true -> contains k (rstrip s) = contains k s.
Proof.
  intros Hk. destruct (rstrip_split s) as (w & Hw & E).
  rewrite E at 2. now rewrite contains_app_space_r.
Qed.

Lemma contains_strip k s :
  keyword_ok k = true -> contains k (strip s) = contains k s.
Proof.
  intros Hk. unfold strip. now rewrite contains_rstrip, contains_lstrip.
Qed.

Lemma contains_normalized_lstrip k s :
  keyword_ok k = true ->
  contains k (normalized (lstrip s)) = contains k (normalized s).
Proof.
  intros Hk. destruct (lstrip_split s) as (w & Hw & E).
  rewrite E at 2. rewrite normalized_app, contains_app_space_l; auto.
  now apply all_space_normalized.
Qed.

Lemma contains_normalized_rstrip k s :
  keyword_ok k = true ->
  contains k (normalized (rstrip s)) = contains k (normalized s).
Proof.
  intros Hk. destruct (rstrip_split s) as (w & Hw & E).
  rewrite E at 2. rewrite normalized_app, contains_app_space_r; auto.
  now apply all_space_normalized.
Qed.

(** ** The first line the detector reads *)

Lemma split_cons_other a s :
  Ascii.eqb a NL = false ->
  split NL (String a s) = String a (hd EmptyString (split NL s)) :: tl (split NL s).
Proof.
  intros H. simpl. rewrite H.
  destruct (split NL s) eqn:E; [now apply split_not_nil in E | reflexivity].
Qed.

Lemma split_cons_NL a s :
  Ascii.eqb a NL = true -> split NL (String a s) = EmptyString :: split NL s.
Proof. intros H. simpl. now rewrite H. Qed.

Lemma first_nonblank_line_cons_NL a s :
  Ascii.eqb a NL = true ->
  first_nonblank_line (String a s) = first_nonblank_line s.
Proof. intros H. unfold first_nonblank_line. now rewrite split_cons_NL. Qed.

Lemma first_nonblank_line_cons_other a s :
  Ascii.eqb a NL = false ->
  first_nonblank_line (String a s) =
    let h := hd EmptyString (split NL s) in
    if isspace a && all_space h then List.find (fun l => negb (all_space l)) (tl (split NL s))
    else Some (String a h).
Proof.
  intros H. unfold first_nonblank_line. rewrite split_cons_other by exact H.
  simpl. now destruct (isspace a && all_space _).
Qed.

Lemma first_nonblank_line_hd s :
  first_nonblank_line s =
    let h := hd EmptyString (split NL s) in
    if all_space h then List.find (fun l => negb (all_space l)) (tl (split NL s))
    else Some h.
Proof.
  unfold first_nonblank_line.
  destruct (split NL s) eqn:E; [now apply split_not_nil in E|].
  simpl. now destruct (all_space _).
Qed.

Lemma first_nonblank_line_all_space s :
  first_nonblank_line s = None <-> all_space s = true.
Proof.
  induction s as [|a s IH]; [now split|].
  destruct (Ascii.eqb a NL) eqn:Ha.
  - rewrite first_nonblank_line_cons_NL by exact Ha. simpl.
    rewrite (isspace_NL a Ha). exact IH.
  - rewrite first_nonblank_line_cons_other by exact Ha.
    rewrite first_nonblank_line_hd in IH. simpl in *.
    destruct (isspace a); simpl.
    + destruct (all_space (hd EmptyString (split NL s))); [exact IH|].
      split; [discriminate|]. intros H. apply IH in H. discriminate.
    + split; discriminate.
Qed.

Lemma hd_split_lstrip content l :
  first_nonblank_line content = Some l ->
  hd EmptyString (split NL (lstrip content)) = lstrip l.
Proof.
  revert l. induction content as [|a s IH]; intros l; [discriminate|].
  destruct (Ascii.eqb a NL) eqn:Ha.
  - rewrite first_nonblank_line_cons_NL by exact Ha.
    simpl. rewrite (isspace_NL a Ha). apply IH.
  - rewrite first_nonblank_line_cons_other by exact Ha.
    pose proof (first_nonblank_line_hd s) as Hhd.
    cbn [lstrip]. cbv zeta in *.
    destruct (isspace a) eqn:Hs; cbn [andb].
    + destruct (all_space (hd EmptyString (split NL s))) eqn:Hh.
      * intros E. apply IH. now rewrite Hhd.
      * intros E. injection E as <-. cbn [lstrip]. rewrite Hs. now apply IH.
    + intros E. injection E as <-. cbn [lstrip]. rewrite Hs.
      now rewrite split_cons_other.
Qed.

Lemma hd_split_cons_other a s :
  Ascii.eqb a NL = false ->
  hd EmptyString (split NL (String a s)) = String a (hd EmptyString (split NL s)).
Proof. intros H. now rewrite split_cons_other. Qed.

Lemma hd_split_rstrip s :
  rstrip (hd EmptyString (split NL (rstrip s)))
  = rstrip (hd EmptyString (split NL s)).
Proof.
  induction s as [|a s IH]; [reflexivity|].
  destruct (Ascii.eqb a NL) eqn:Ha.
  - rewrite (split_cons_NL a s Ha). cbn [rstrip hd].
    rewrite (isspace_NL a Ha).
    destruct (rstrip s); [reflexivity|]. now rewrite split_cons_NL.
  - rewrite (hd_split_cons_other a s Ha). cbn [rstrip].
    rewrite <- IH.
    destruct (rstrip s) as [|b r] eqn:E.
    + cbn [split hd rstrip]. destruct (isspace a) eqn:Hs; [reflexivity|].
      rewrite hd_split_cons_other by exact Ha. cbn [split hd rstrip].
      now rewrite Hs.
    + now rewrite hd_split_cons_other.
Qed.

(** What the detector reads is, up to whitespace at its ends, the first
    non-empty line of the content. *)
Lemma rstrip_code_line content l :
  first_nonblank_line content = Some l ->
  rstrip (hd EmptyString (split NL (strip content))) = strip l.
Proof.
  intros H. unfold strip at 1. rewrite hd_split_rstrip.
  now rewrite (hd_split_lstrip content l H).
Qed.

Lemma detect_loop_ext items x y :
  (forall k, In k (map fst items) ->
     contains k (squeeze x) = contains k (squeeze y)) ->
  detect_loop items x = detect_loop items y.
Proof.
  induction items as [|[k d] items IH]; intros H; [reflexivity|].
  simpl. rewrite (H k) by now left.
  destruct (contains k (squeeze y)); [reflexivity|].
  apply IH. intros k' Hk'. apply H. now right.
Qed.

Lemma type_map_keyword_ok k :
  In k (map fst type_map) -> keyword_ok k = true.
Proof.
  assert (H : forallb keyword_ok (map fst type_map) = true) by reflexivity.
  rewrite forallb_forall in H. apply H.
Qed.

(** The detector's answer is the table's answer on the first non-empty
    line, taken as it stands in the content. *)
Lemma detect_by_first_nonblank_line content l :
  first_nonblank_line content = Some l ->
  detect_diagram_type content = detect_loop type_map (lower l).
Proof.
  intros H. unfold detect_diagram_type, first_line.
  assert (Hne : all_space content = false).
  { destruct (all_space content) eqn:E; [|reflexivity].
    apply first_nonblank_line_all_space in E. congruence. }
  rewrite truthy_strip, Hne. cbn [negb].
  apply detect_loop_ext. intros k Hk. apply type_map_keyword_ok in Hk.
  fold (normalized (hd EmptyString (split NL (strip content)))).
  fold (normalized l).
  rewrite <- contains_normalized_rstrip by exact Hk.
  rewrite (rstrip_code_line content l H). unfold strip.
  rewrite contains_normalized_rstrip by exact Hk.
  now apply contains_normalized_lstrip.
Qed.

Lemma detect_blank content :
  all_space content = true -> detect_diagram_type content = "unknown".
Proof.
  intros H. unfold detect_diagram_type, first_line.
  now rewrite truthy_strip, H.
Qed.


(** ** Lines *)

Lemma split_no_NL s : Forall (fun l => no_NL l = true) (split NL s).
Proof.
  induction s as [|a s IH]; [repeat constructor|].
  destruct (Ascii.eqb a NL) eqn:Ha.
  - rewrite split_cons_NL by exact Ha. now constructor.
  - rewrite split_cons_other by exact Ha.
    destruct (split NL s) as [|h t] eqn:E; [now apply split_not_nil in E|].
    inversion IH as [|? ? Hh Ht]; subst. constructor; [|exact Ht].
    cbn [hd no_NL]. now rewrite Ha, Hh.
Qed.

Lemma split_single_line s : no_NL s = true -> split NL s = [s].
Proof.
  induction s as [|a s IH]; [reflexivity|].
  intros H. apply andb_true_iff in H as [Ha Hs].
  apply negb_true_iff in Ha.
  rewrite split_cons_other by exact Ha. now rewrite (IH Hs).
Qed.

Lemma split_app_NL x r :
  no_NL x = true -> split NL (x +:+ String NL r) = x :: split NL r.
Proof.
  induction x as [|a x IH]; [reflexivity|].
  intros H. apply andb_true_iff in H as [Ha Hx].
  apply negb_true_iff in Ha. sapp.
  rewrite split_cons_other by exact Ha. now rewrite (IH Hx).
Qed.

Lemma split_join l :
  l <> [] -> Forall (fun e => no_NL e = true) l -> split NL (join NL l) = l.
Proof.
  induction l as [|x l IH]; [congruence|].
  intros _ H. inversion H as [|? ? Hx Hl]; subst.
  destruct l as [|y l]; [now apply split_single_line|].
  change (join NL (x :: y :: l)) with (x +:+ String NL (join NL (y :: l))).
  rewrite split_app_NL by exact Hx. f_equal. now apply IH.
Qed.

Lemma no_NL_lstrip s : no_NL s = true -> no_NL (lstrip s) = true.
Proof.
  induction s as [|a s IH]; [reflexivity|].
  intros H. simpl. destruct (isspace a); [|exact H].
  apply andb_true_iff in H as [_ H]. auto.
Qed.

Lemma no_NL_rstrip s : no_NL s = true -> no_NL (rstrip s) = true.
Proof.
  induction s as [|a s IH]; [reflexivity|].
  intros H. apply andb_true_iff in H as [Ha Hs]. specialize (IH Hs).
  simpl. destruct (rstrip s).
  - destruct (isspace a); [reflexivity|]. simpl. now rewrite Ha.
  - change (no_NL (String a (String a0 s0)))
      with (negb (Ascii.eqb a NL) && no_NL (String a0 s0)).
    now rewrite Ha, IH.
Qed.

Lemma no_NL_strip s : no_NL s = true -> no_NL (strip s) = true.
Proof. intros H. unfold strip. now apply no_NL_rstrip, no_NL_lstrip. Qed.



(** ** The extractor and its specification *)

Lemma parse_loop_filter lines errors :
  parse_loop lines errors
  = errors ++ map strip (List.filter qualifies lines).
Proof.
  revert errors. induction lines as [|line rest IH]; intros errors.
  - simpl. now rewrite List.app_nil_r.
  - cbn [parse_loop List.filter]. unfold qualifies at 1.
    destruct (any_in error_keywords (lower line));
      destruct (truthy (strip line));
      destruct (startswith (strip line) "("); cbn [andb negb map];
      rewrite IH; try reflexivity.
    now rewrite <- List.app_assoc.
Qed.

Lemma parse_mmdc_errors_refines stderr :
  parse_mmdc_errors stderr = parse_mmdc_errors_spec stderr.
Proof.
  unfold parse_mmdc_errors, parse_mmdc_errors_spec, extracted.
  rewrite parse_loop_filter. cbn [app].
  now destruct (map strip (List.filter qualifies (split NL stderr))).
Qed.

Lemma any_in_error_keywords_strip line :
  any_in error_keywords (lower (strip line))
  = any_in error_keywords (lower line).
Proof.
  unfold any_in, error_keywords. cbn [existsb].
  rewrite lower_strip. now rewrite !contains_strip by reflexivity.
Qed.

Lemma qualifies_strip line : qualifies (strip line) = qualifies line.
Proof.
  unfold qualifies. now rewrite strip_idem, any_in_error_keywords_strip.
Qed.

Lemma qualifies_no_paren line :
  qualifies line = true -> startswith (strip line) "(" = false.
Proof.
  unfold qualifies. intros H. apply andb_true_iff in H as [_ H].
  now apply negb_true_iff in H.
Qed.

Lemma extracted_fixed lines :
  Forall (fun l => no_NL l = true) lines ->
  let kept := map strip (List.filter qualifies lines) in
  Forall (fun e => no_NL e = true) kept
  /\ map strip (List.filter qualifies kept) = kept.
Proof.
  induction 1 as [|line rest Hline _ [IH1 IH2]]; [now split|].
  cbn [List.filter]. destruct (qualifies line) eqn:Hq; [|now split].
  cbn [map List.filter]. rewrite qualifies_strip, Hq. cbn [map].
  rewrite strip_idem. split.
  - constructor; [now apply no_NL_strip | exact IH1].
  - f_equal. exact IH2.
Qed.

(** ** A keyword inside a longer keyword *)

Lemma contains_prefix k s : String.prefix k s = true -> contains k s = true.
Proof. intros H. destruct s; simpl in *; now rewrite H. Qed.

Lemma contains_app_intro k p r :
  contains k r = true -> contains k (p +:+ r) = true.
Proof.
  intros H. induction p as [|c p IH]; [exact H|]. sapp.
  change (contains k (String c (p +:+ r)))
    with (String.prefix k (String c (p +:+ r)) || contains k (p +:+ r)).
  rewrite IH. apply orb_true_r.
Qed.

Lemma prefix_app_split p k x :
  String.prefix (p +:+ k) x = true ->
  exists r, x = p +:+ r /\ String.prefix k r = true.
Proof.
  revert x. induction p as [|c p IH]; intros x H; sapp.
  - now exists x.
  - destruct x as [|a x]; [discriminate|].
    rewrite prefix_cons in H. apply andb_true_iff in H as [Hc Hp].
    apply Ascii.eqb_eq in Hc. subst a.
    destruct (IH x Hp) as (r & -> & Hr). now exists r.
Qed.

Lemma contains_suffix p k x :
  contains (p +:+ k) x = true -> contains k x = true.
Proof.
  assert (Hpre : forall y, String.prefix (p +:+ k) y = true -> contains k y = true).
  { intros y Hy. apply prefix_app_split in Hy as (r & -> & Hr).
    now apply contains_app_intro, contains_prefix. }
  induction x as [|c x IH]; intros H.
  - apply Hpre. simpl in H. now rewrite orb_false_r in H.
  - change (contains (p +:+ k) (String c x))
      with (String.prefix (p +:+ k) (String c x) || contains (p +:+ k) x) in H.
    apply orb_true_iff in H as [H|H]; [now apply Hpre|].
    change (contains k (String c x))
      with (String.prefix k (String c x) || contains k x).
    rewrite (IH H). apply orb_true_r.
Qed.

(** The table entry for gitgraph can never answer: a line that holds
    gitgraph holds graph, which the loop meets first. *)
Lemma git_graph_unreachable content :
  detect_diagram_type content <> "git-graph".
Proof.
  unfold detect_diagram_type. generalize (first_line content). intros line.
  unfold type_map. cbn [detect_loop].
  destruct (contains "graph" (squeeze line)) eqn:G; [discriminate|].
  repeat match goal with
         | |- context [if contains ?k ?x then _ else _] =>
             destruct (contains k x) eqn:?; try discriminate
         end.
  match goal with
  | H : contains "gitgraph" _ = true |- _ =>
      apply (contains_suffix "git" "graph") in H; congruence
  end.
Qed.

(** ** Running the model *)

Arguments detect_diagram_type : simpl never.
Arguments parse_mmdc_errors : simpl never.
Arguments mmdc_argv : simpl never.

Ltac unfold_model :=
  unfold attempt, try_except, try_body, handlers, NamedTemporaryFile, write,
    subprocess_run, set_temp_input, set_temp_output, on_world, enter,
    bind, ret, raise, log, set_files in *.

Lemma not_blank content :
  all_space content = false ->
  negb (truthy content) || negb (truthy (strip content)) = false.
Proof.
  intros H. rewrite truthy_strip, H.
  destruct content; [discriminate | reflexivity].
Qed.

Lemma blank content :
  all_space content = true ->
  negb (truthy content) || negb (truthy (strip content)) = true.
Proof. intros H. rewrite truthy_strip, H. apply orb_true_r. Qed.

Lemma frame_eta s evs :
  evs = [] ->
  s = {| the_world := {| files := files (the_world s);
                         trace := trace (the_world s) ++ evs |};
         temp_input := temp_input s; temp_output := temp_output s |}.
Proof. intros ->. destruct s as [[fs tr] ti to]. simpl. now rewrite List.app_nil_r. Qed.

(** One guarded unlink that meets no error: the path is gone, nothing else
    changes, nothing is created. *)
Lemma unlink_if_set_ok env temp s :
  (forall p, temp = Some p -> unlink_error env p = None) ->
  exists fs evs,
    unlink_if_set env temp s
    = (inl tt, {| the_world := {| files := fs;
                                  trace := trace (the_world s) ++ evs |};
                  temp_input := temp_input s; temp_output := temp_output s |})
    /\ (forall q, q ∈ fs <-> q ∈ files (the_world s) /\ (q ∉ doomed temp))
    /\ (forall q, ~ In (EvCreate q) evs).
Proof.
  intros Hu. unfold unlink_if_set, doomed.
  destruct temp as [p|];
    [destruct (truthy p); [specialize (Hu p eq_refl)|]|].
  - unfold unlink_missing_ok, on_world, bind, ret, raise, log, set_files. cbn.
    destruct (decide (p ∈ files (the_world s))) as [Hin|Hout].
    + rewrite Hu. eexists _, [EvUnlink p]. split; [reflexivity|].
      split; [set_solver | intros q [H|[]]; discriminate H].
    + eexists _, [EvUnlink p]. split; [reflexivity|].
      split; [|intros q [H|[]]; discriminate H].
      intros q. rewrite elem_of_singleton. split; [|tauto].
      intros Hq. split; [exact Hq | congruence].
  - exists (files (the_world s)), []. split; [now apply f_equal, frame_eta|].
    split; [|intros q []]. intros q. split; [|tauto].
    intros Hq. split; [exact Hq | apply not_elem_of_empty].
  - exists (files (the_world s)), []. split; [now apply f_equal, frame_eta|].
    split; [|intros q []]. intros q. split; [|tauto].
    intros Hq. split; [exact Hq | apply not_elem_of_empty].
Qed.

(** The [finally] block when no unlink meets an error. *)
Lemma cleanup_ok env s :
  (forall p, temp_input s = Some p -> unlink_error env p = None) ->
  (forall p, temp_output s = Some p -> unlink_error env p = None) ->
  exists s' evs,
    cleanup env s = (inl tt, s')
    /\ trace (the_world s') = trace (the_world s) ++ evs
    /\ (forall q, ~ In (EvCreate q) evs)
    /\ (forall q, (q ∈ files (the_world s')) <->
          (q ∈ files (the_world s)
           /\ (q ∉ doomed (temp_input s)) /\ (q ∉ doomed (temp_output s)))).
Proof.
  intros Hi Ho. unfold cleanup, bind.
  destruct (unlink_if_set_ok env (temp_input s) s Hi) as (fs1 & ev1 & -> & Hfs1 & Hev1).
  cbn [temp_output].
  match goal with |- context [unlink_if_set env _ ?s1] =>
    destruct (unlink_if_set_ok env (temp_output s) s1 Ho) as (fs2 & ev2 & -> & Hfs2 & Hev2)
  end.
  eexists _, (ev1 ++ ev2). split; [reflexivity|]. cbn.
  split; [now rewrite List.app_assoc|].
  split.
  - intros q H. apply in_app_or in H as [H|H]; [now apply (Hev1 q) | now apply (Hev2 q)].
  - intros q. rewrite Hfs2. cbn. rewrite Hfs1. tauto.
Qed.

Lemma try_finally_ok {A} (body : M A) final s r s' s'' :
  body s = (r, s') -> final s' = (inl tt, s'') ->
  try_finally body final s = (r, s'').
Proof. intros Hb Hf. unfold try_finally. now rewrite Hb, Hf. Qed.

Ltac case_oracle :=
  match goal with
  | |- context [match tempname ?e ?x with _ => _ end] =>
      destruct (tempname e x) as [?|[[] ?]] eqn:?
  | |- context [match write_error ?e ?x ?y with _ => _ end] =>
      destruct (write_error e x y) as [[[] ?]|] eqn:?
  | |- context [match spawn ?e ?x with _ => _ end] =>
      destruct (spawn e x) as [[[] ?]|? ?|] eqn:?
  | |- context [if (?a <? ?b)%N then _ else _] =>
      destruct (a <? b)%N eqn:?
  | |- context [(returncode ?r =? 0)%Z] =>
      destruct (returncode r =? 0)%Z eqn:?
  end.

Ltac run_attempt := unfold_model; repeat (cbn in *; try case_oracle).

Lemma parse_mmdc_errors_not_nil stderr : parse_mmdc_errors stderr <> [].
Proof.
  unfold parse_mmdc_errors.
  destruct (parse_loop (split NL stderr) []); discriminate.
Qed.

(** What the [try] block and its handlers can return. *)
Lemma attempt_shape env content s :
  match attempt env content s with
  | (inl r, _) =>
      exists valid errors,
        r = result_dict valid errors (detect_diagram_type content)
        /\ (errors <> [] <-> valid = false)
  | (inr _, _) => True
  end.
Proof.
  run_attempt; try exact I;
    try (eexists false, [_]; split; [reflexivity|]; split; [reflexivity|discriminate]).
  - exists true, []. split; [reflexivity|]. split; [congruence|discriminate].
  - eexists false, _. split; [reflexivity|]. split; [reflexivity|].
    intros _. apply parse_mmdc_errors_not_nil.
Qed.

(** With names that are not empty and a write that succeeds, every file the
    [try] block creates is recorded in the local the [finally] block reads. *)
Lemma attempt_tracks env content w :
  (forall suffix name, tempname env suffix = inl name -> truthy name = true) ->
  (forall name, write_error env name content = None) ->
  exists evs,
    trace (the_world (snd (attempt env content (enter w)))) = trace w ++ evs
    /\ forall p, In (EvCreate p) evs ->
         p ∈ doomed (temp_input (snd (attempt env content (enter w))))
             ∪ doomed (temp_output (snd (attempt env content (enter w)))).
Proof.
  intros Hn Hw. unfold_model.
  repeat (cbn in *; try rewrite Hw; try case_oracle);
    repeat match goal with
           | H : tempname _ _ = inl _ |- _ => apply Hn in H
           end;
    first
      [ exists []; split; [now rewrite List.app_nil_r | intros p []]
      | rewrite <- ?List.app_assoc; eexists; split; [reflexivity|];
        cbn; intros p Hp;
        repeat (destruct Hp as [Hp|Hp]; [try discriminate Hp|]);
        try contradiction; try (injection Hp as <-);
        unfold doomed;
        repeat match goal with H : truthy _ = true |- _ => rewrite H end;
        set_solver ].
Qed.

(** The [try] block when the renderer outlives its ten seconds. *)
Lemma attempt_timeout env content w f g :
  tempname env ".mmd" = inl f ->
  write_error env f content = None ->
  tempname env ".svg" = inl g ->
  exceeds 10 (spawn env (mmdc_argv f g)) = true ->
  exists wd,
    attempt env content (enter w)
    = (inl (result_dict false
              ["Validation timeout (diagram too complex or infinite loop)"]
              (detect_diagram_type content)),
       {| the_world := wd; temp_input := Some f; temp_output := Some g |}).
Proof.
  intros Hf Hw Hg Ht. unfold_model.
  rewrite Hf. cbn. rewrite Hw. cbn. rewrite Hg. cbn.
  destruct (spawn env (mmdc_argv f g)) as [e|millis r|]; cbn in Ht |- *;
    [discriminate|rewrite Ht|]; cbn; eexists; reflexivity.
Qed.

(** Every dict [validate_diagram] returns. *)
Lemma validate_diagram_shape env content w r :
  fst (validate_diagram env content w) = inl r ->
  exists valid errors diagram_type,
    r = result_dict valid errors diagram_type
    /\ (errors <> [] <-> valid = false).
Proof.
  unfold validate_diagram.
  destruct (negb (truthy content) || negb (truthy (strip content))).
  - cbn. intros [= <-]. eexists false, [_], _. split; [reflexivity|].
    split; [reflexivity|discriminate].
  - unfold try_finally.
    pose proof (attempt_shape env content (enter w)) as Hs.
    destruct (attempt env content (enter w)) as [[r'|e] s'];
      destruct (cleanup env s') as [[[]|e'] s'']; cbn; intros [= <-].
    destruct Hs as (valid & errors & -> & H). now eexists valid, errors, _.
Qed.

(** ** The extractor against its contract *)

Lemma prefix_self_app k post : String.prefix k (k +:+ post) = true.
Proof.
  induction k as [|c k IH]; sapp; [apply prefix_empty|].
  now rewrite prefix_cons, Ascii.eqb_refl.
Qed.

Lemma prefix_occurs k s :
  String.prefix k s = true <-> exists post, s = k +:+ post.
Proof.
  split.
  - intros H. rewrite <- (sapp_nil_r k) in H.
    apply prefix_app_split in H as (r & -> & _). now exists r.
  - intros (post & ->). apply prefix_self_app.
Qed.

Lemma contains_occurs k s : contains k s = true <-> occurs k s.
Proof.
  split.
  - induction s as [|c s IH]; intros H.
    + destruct k; [|discriminate H]. now exists EmptyString, EmptyString.
    + change (contains k (String c s))
        with (String.prefix k (String c s) || contains k s) in H.
      apply orb_true_iff in H as [H|H].
      * apply prefix_occurs in H as (post & H). now exists EmptyString, post.
      * destruct (IH H) as (pre & post & ->). now exists (String c pre), post.
  - intros (pre & post & ->).
    apply contains_app_intro, contains_prefix, prefix_self_app.
Qed.

Lemma any_in_mentions_error line :
  any_in error_keywords (lower line) = true <-> mentions_error line.
Proof.
  unfold any_in, error_keywords, mentions_error. cbn [existsb].
  rewrite !orb_true_iff, !contains_occurs. intuition discriminate.
Qed.

Lemma startswith_paren s :
  startswith s "(" = false <-> forall rest, s <> String "(" rest.
Proof.
  unfold startswith. destruct s as [|c t].
  - split; [discriminate | reflexivity].
  - rewrite prefix_cons, prefix_empty, andb_true_r. split.
    + intros H rest [= -> _]. discriminate H.
    + intros H. destruct (Ascii.eqb "(" c) eqn:E; [|reflexivity].
      apply Ascii.eqb_eq in E. subst c. now destruct (H t).
Qed.

(** The loop keeps a line exactly when the contract reports it. *)
Lemma reportable_qualifies line : reportable line <-> qualifies line = true.
Proof.
  unfold reportable, qualifies.
  rewrite !andb_true_iff, negb_true_iff, any_in_mentions_error,
    startswith_paren.
  assert (Ht : truthy (strip line) = true <-> strip line <> EmptyString)
    by (destruct (strip line); simpl; split; congruence).
  rewrite Ht. tauto.
Qed.

Lemma reported_extracted lines :
  reported lines (map strip (List.filter qualifies lines)).
Proof.
  induction lines as [|line lines IH]; [constructor|].
  cbn [List.filter]. destruct (qualifies line) eqn:Hq.
  - cbn [map]. apply reported_keep; [now apply reportable_qualifies | exact IH].
  - apply reported_skip; [|exact IH].
    intros H. apply reportable_qualifies in H. congruence.
Qed.

Lemma reported_unique lines out :
  reported lines out -> out = map strip (List.filter qualifies lines).
Proof.
  induction 1 as [|line lines out Hr _ IH|line lines out Hr _ IH];
    [reflexivity|..]; cbn [List.filter].
  - apply reportable_qualifies in Hr. rewrite Hr. cbn [map]. now rewrite IH.
  - destruct (qualifies line) eqn:Hq; [|exact IH].
    apply reportable_qualifies in Hq. contradiction.
Qed.

(** * The claims *)

(** C1.  The claim: every content whose first non-empty line holds the
    keyword gitgraph once normalized is classified git-graph.  The code
    does not do so: on the content gitGraph it answers flowchart, and no
    content at all is ever classified git-graph, because the table is
    searched in order and graph, its first key, is part of gitgraph. *)
Theorem detect_gitgraph_shadowed :
  first_nonblank_line "gitGraph" = Some "gitGraph"
  /\ contains "gitgraph" (normalized "gitGraph") = true
  /\ detect_diagram_type "gitGraph" = "flowchart"
  /\ forall content, detect_diagram_type content <> "git-graph".
Proof.
  split; [reflexivity|]. split; [reflexivity|]. split; [reflexivity|].
  exact git_graph_unreachable.
Qed.

(** C2.  The claim: a run in which the renderer cannot be started exits
    with code 2, as the module docstring promises (2 - Tool not available).
    The code does not do so: with no npx on the PATH the run prints a
    valid-false result and exits with code 1, the code of an invalid
    diagram; and once the arguments are read no run exits with code 2. *)
Theorem main_tool_unavailable_exits_1 :
  spawn env_no_npx (mmdc_argv "/tmp/tmpk3x9.mmd" "/tmp/tmpk3x9.svg")
  = Raises (Exn FileNotFoundError "No such file or directory: 'npx'")
  /\ fst (validate_diagram env_no_npx (stdin_text env_no_npx) empty_world)
     = inl (result_dict false
              ["mermaid-cli not available - npx command not found"]
              "flowchart")
  /\ status (fst (main env_no_npx ["validate_mermaid.py"; "--stdin"] empty_world))
     = Exit 1
  /\ forall env content w, status (fst (report env content w)) <> Exit 2.
Proof.
  split; [reflexivity|]. split; [vm_compute; reflexivity|].
  split; [vm_compute; reflexivity|].
  intros env content w. unfold report.
  destruct (validate_diagram env content w) as [[r|e] w']; [|discriminate].
  destruct (dict_get r "valid") as [v|]; [|discriminate].
  cbn. destruct (pytruthy v); discriminate.
Qed.

(** C3.  For empty or whitespace-only content [validate_diagram] returns
    at once the dict valid false, errors Empty diagram content, warnings
    empty, diagram_type unknown; the world is handed back as it was: no
    temporary file is created and no subprocess is run. *)
Theorem validate_diagram_empty env content w :
  all_space content = true ->
  validate_diagram env content w
  = (inl [ ("valid", PBool false);
           ("errors", PList ["Empty diagram content"]);
           ("warnings", PList []);
           ("diagram_type", PStr "unknown") ],
     w).
Proof.
  intros H. unfold validate_diagram. now rewrite (blank content H).
Qed.

Lemma validate_diagram_empty_witness :
  validate_diagram env_ok ("  " +:+ String NL " ") empty_world
  = (inl [ ("valid", PBool false);
           ("errors", PList ["Empty diagram content"]);
           ("warnings", PList []);
           ("diagram_type", PStr "unknown") ],
     empty_world).
Proof. apply validate_diagram_empty. reflexivity. Defined.

(** C4.  Whatever dict [validate_diagram] returns, [main] prints it,
    pretty-printed as one JSON object, on standard output, prints nothing
    on standard error, and exits with 0 when the dict has valid true and
    with 1 when it has valid false. *)
Theorem main_prints_and_exits env argv content w r :
  parse_arguments env argv = inl content ->
  fst (validate_diagram env content w) = inl r ->
  exists valid : bool,
    dict_get r "valid" = Some (PBool valid)
    /\ fst (main env argv w)
       = {| out := print (Json.dumps (Some 2) r);
            err := "";
            status := Exit (if valid then 0 else 1) |}
    /\ (status (fst (main env argv w)) = Exit 0 <-> valid = true).
Proof.
  intros Hp Hv. unfold main, report. rewrite Hp.
  destruct (validate_diagram_shape env content w r Hv)
    as (valid & errors & dt & -> & _).
  destruct (validate_diagram env content w) as [[r'|e] w']; cbn in Hv;
    [|discriminate].
  injection Hv as ->. exists valid. cbn.
  split; [reflexivity|]. split; [now destruct valid|].
  destruct valid; cbn; split; congruence.
Qed.

Lemma main_prints_and_exits_witness :
  exists valid : bool,
    dict_get (result_dict true [] "flowchart") "valid" = Some (PBool valid)
    /\ fst (main env_ok ["validate_mermaid.py"; "--stdin"] empty_world)
       = {| out := print (Json.dumps (Some 2) (result_dict true [] "flowchart"));
            err := "";
            status := Exit (if valid then 0 else 1) |}
    /\ (status (fst (main env_ok ["validate_mermaid.py"; "--stdin"] empty_world))
        = Exit 0 <-> valid = true).
Proof.
  apply (main_prints_and_exits env_ok ["validate_mermaid.py"; "--stdin"]
           (stdin_text env_ok) empty_world).
  - reflexivity.
  - vm_compute. reflexivity.
Defined.



(** C6.  The extractor returns, in input order, exactly the trimmed
    non-empty lines whose lowercased form holds one of error, parse,
    syntax, invalid, unexpected and which do not start, once trimmed, with
    an opening parenthesis: its answer is the one list [reported] allows,
    or the fallback message when that list is empty.  No returned line
    starts with an opening parenthesis, whatever else it holds, and when no
    line is reportable the result is the single message Syntax error in
    diagram. *)
Theorem parse_mmdc_errors_extracts stderr :
  (exists out,
     reported (split NL stderr) out
     /\ parse_mmdc_errors stderr
        = match out with [] => ["Syntax error in diagram"] | _ => out end)
  /\ (forall out,
        reported (split NL stderr) out ->
        parse_mmdc_errors stderr
        = match out with [] => ["Syntax error in diagram"] | _ => out end)
  /\ (forall e rest,
        In e (parse_mmdc_errors stderr) -> e <> String "(" rest)
  /\ ((forall line, In line (split NL stderr) -> ~ reportable line) ->
      parse_mmdc_errors stderr = ["Syntax error in diagram"]).
Proof.
  assert (Hcode : parse_mmdc_errors stderr
                  = match extracted stderr with
                    | [] => ["Syntax error in diagram"]
                    | _ => extracted stderr
                    end).
  { rewrite parse_mmdc_errors_refines. unfold parse_mmdc_errors_spec.
    now destruct (extracted stderr). }
  split; [|split; [|split]].
  - exists (extracted stderr). split; [apply reported_extracted | exact Hcode].
  - intros out H. apply reported_unique in H. now subst out.
  - intros e rest He.
    rewrite parse_mmdc_errors_refines in He. unfold parse_mmdc_errors_spec in He.
    destruct (extracted stderr) as [|x l] eqn:E.
    + destruct He as [<-|[]]. discriminate.
    + rewrite <- E in He. unfold extracted in He.
      apply in_map_iff in He as (line & <- & Hin).
      apply filter_In in Hin as [_ Hq].
      apply reportable_qualifies in Hq. apply Hq.
  - intros Hnone. rewrite Hcode.
    replace (extracted stderr) with (@nil string); [reflexivity|].
    unfold extracted. symmetry.
    induction (split NL stderr) as [|line lines IH]; [reflexivity|].
    cbn [List.filter]. destruct (qualifies line) eqn:Hq.
    + apply reportable_qualifies in Hq. now destruct (Hnone line (or_introl eq_refl)).
    + apply IH. intros l Hl. apply Hnone. now right.
Qed.

(** A run of the contract by hand: of four lines, the first and the last
    are reported, trimmed and in order; the second starts with an opening
    parenthesis although it holds syntax and error; the third holds none
    of the five words. *)
Lemma parse_mmdc_errors_extracts_witness :
  parse_mmdc_errors
    ("  Error: Parse error on line 2:  "
     +:+ String NL "  (syntax error noise)"
     +:+ String NL "all fine"
     +:+ String NL "Unexpected TOKEN ")
  = ["Error: Parse error on line 2:"; "Unexpected TOKEN"].
Proof.
  apply (proj1 (proj2 (parse_mmdc_errors_extracts _))
           ["Error: Parse error on line 2:"; "Unexpected TOKEN"]).
  change (reported
            ["  Error: Parse error on line 2:  "; "  (syntax error noise)";
             "all fine"; "Unexpected TOKEN "]
            [strip "  Error: Parse error on line 2:  ";
             strip "Unexpected TOKEN "]).
  apply reported_keep.
  { split; [discriminate|]. split; [|discriminate].
    left. now exists "  ", ": parse error on line 2:  ". }
  apply reported_skip.
  { intros (_ & _ & H). now apply (H "syntax error noise)"). }
  apply reported_skip.
  { intros (_ & H & _).
    repeat (destruct H as [H|H];
            [apply contains_occurs in H; discriminate H|]).
    apply contains_occurs in H. discriminate H. }
  apply reported_keep; [|constructor].
  split; [discriminate|]. split; [|discriminate].
  do 4 right. now exists "", " token ".
Defined.

(** C7, as the code has it.  When the temporary names are not empty, the
    write of the content raises nothing and no unlink meets an error other
    than a missing file, then on every exit path (the renderer accepts,
    rejects, times out, cannot be started, any step raises) no file the
    call created exists once the call is over; a file already missing when
    the [finally] block runs is passed over in silence, and the outcome of
    the call is the outcome of the [try] block and its handlers. *)
Theorem validate_diagram_cleanup env content w :
  (forall suffix name, tempname env suffix = inl name -> truthy name = true) ->
  (forall name, write_error env name content = None) ->
  (forall p, unlink_error env p = None) ->
  (forall p, created w (snd (validate_diagram env content w)) p ->
             p ∉ files (snd (validate_diagram env content w)))
  /\ (all_space content = false ->
      fst (validate_diagram env content w)
      = fst (attempt env content (enter w))).
Proof.
  intros Hn Hw Hu. unfold validate_diagram.
  destruct (all_space content) eqn:Hc.
  - rewrite (blank content Hc). cbn. split; [|discriminate].
    intros p. unfold created. rewrite drop_all. intros [].
  - rewrite (not_blank content Hc).
    destruct (attempt_tracks env content w Hn Hw) as (evs & Htr & Hcr).
    destruct (attempt env content (enter w)) as [r s'] eqn:Ha. cbn in Htr, Hcr.
    destruct (cleanup_ok env s') as (s'' & evs' & Hcl & Htr' & Hno & Hfs);
      [intros; apply Hu | intros; apply Hu |].
    rewrite (try_finally_ok _ _ _ _ _ _ Ha Hcl). cbn. split; [|reflexivity].
    intros p. unfold created.
    rewrite Htr', Htr, <- List.app_assoc, drop_app_length.
    intros Hp. apply in_app_or in Hp as [Hp|Hp]; [|now apply Hno in Hp].
    apply Hcr in Hp. rewrite Hfs. intros (_ & Hi & Ho).
    apply elem_of_union in Hp as [Hp|Hp]; contradiction.
Qed.

Lemma validate_diagram_cleanup_witness :
  (forall p,
     created empty_world (snd (validate_diagram env_rejects "graph TD" empty_world)) p ->
     p ∉ files (snd (validate_diagram env_rejects "graph TD" empty_world)))
  /\ (all_space "graph TD" = false ->
      fst (validate_diagram env_rejects "graph TD" empty_world)
      = fst (attempt env_rejects "graph TD" (enter empty_world))).
Proof.
  apply (validate_diagram_cleanup env_rejects "graph TD" empty_world).
  - intros suffix name [= <-]. reflexivity.
  - intros name. reflexivity.
  - intros p. reflexivity.
Defined.

(** C7 as stated fails: an unlink that meets PermissionError is not passed
    over; the exception leaves [validate_diagram] in place of a result and
    the file the call created is still there. *)
Lemma validate_diagram_unlink_error_propagates :
  fst (validate_diagram env_locked "graph TD" empty_world)
  = inr (Exn PermissionError "Permission denied: '/tmp/tmpk3x9.mmd'")
  /\ created empty_world
       (snd (validate_diagram env_locked "graph TD" empty_world))
       "/tmp/tmpk3x9.mmd"
  /\ "/tmp/tmpk3x9.mmd"
       ∈ files (snd (validate_diagram env_locked "graph TD" empty_world)).
Proof.
  split; [vm_compute; reflexivity|].
  split; [vm_compute; now left|].
  apply (bool_decide_unpack _). vm_compute. exact I.
Qed.

(** The slip next to it: [temp_input] is assigned after [f.write], so a
    write that raises leaves the input file behind although the call
    returns a result. *)
Lemma validate_diagram_write_error_leaks :
  fst (validate_diagram env_unwritable "graph TD" empty_world)
  = inl (result_dict false
           ["Validation error: codec can't encode character"] "flowchart")
  /\ created empty_world
       (snd (validate_diagram env_unwritable "graph TD" empty_world))
       "/tmp/tmpk3x9.mmd"
  /\ "/tmp/tmpk3x9.mmd"
       ∈ files (snd (validate_diagram env_unwritable "graph TD" empty_world)).
Proof.
  split; [vm_compute; reflexivity|].
  split; [vm_compute; now left|].
  apply (bool_decide_unpack _). vm_compute. exact I.
Qed.

(** C8, as the code has it.  When the renderer outlives the fixed ten
    seconds and deleting the two temporary files meets no error,
    [validate_diagram] returns the dict valid false, errors Validation
    timeout (diagram too complex or infinite loop), warnings empty,
    diagram_type the detector's answer on the content. *)
Theorem validate_diagram_timeout env content w f g :
  all_space content = false ->
  tempname env ".mmd" = inl f ->
  write_error env f content = None ->
  tempname env ".svg" = inl g ->
  exceeds 10 (spawn env (mmdc_argv f g)) = true ->
  unlink_error env f = None ->
  unlink_error env g = None ->
  fst (validate_diagram env content w)
  = inl [ ("valid", PBool false);
          ("errors",
           PList ["Validation timeout (diagram too complex or infinite loop)"]);
          ("warnings", PList []);
          ("diagram_type", PStr (detect_diagram_type content)) ].
Proof.
  intros Hc Hf Hw Hg Ht Huf Hug.
  unfold validate_diagram. rewrite (not_blank content Hc).
  destruct (attempt_timeout env content w f g Hf Hw Hg Ht) as (wd & Ha).
  destruct (cleanup_ok env
              {| the_world := wd; temp_input := Some f; temp_output := Some g |})
    as (s'' & evs & Hcl & _); [now intros p [= <-] | now intros p [= <-] |].
  now rewrite (try_finally_ok _ _ _ _ _ _ Ha Hcl).
Qed.

Lemma validate_diagram_timeout_witness :
  fst (validate_diagram env_hangs "graph TD" empty_world)
  = inl [ ("valid", PBool false);
          ("errors",
           PList ["Validation timeout (diagram too complex or infinite loop)"]);
          ("warnings", PList []);
          ("diagram_type", PStr (detect_diagram_type "graph TD")) ].
Proof.
  apply (validate_diagram_timeout env_hangs "graph TD" empty_world
           "/tmp/tmpk3x9.mmd" "/tmp/tmpk3x9.svg"); reflexivity.
Defined.

(** C8 as stated fails: the renderer outlives its ten seconds, the handler
    builds the timeout dict, and the unlink of the [finally] block raises
    PermissionError, which leaves [validate_diagram] in its place. *)
Lemma validate_diagram_timeout_lost :
  exceeds 10 (spawn env_locked (mmdc_argv "/tmp/tmpk3x9.mmd" "/tmp/tmpk3x9.svg"))
  = true
  /\ fst (validate_diagram env_locked "graph TD" empty_world)
     = inr (Exn PermissionError "Permission denied: '/tmp/tmpk3x9.mmd'")
  /\ fst (validate_diagram env_locked "graph TD" empty_world)
     <> inl [ ("valid", PBool false);
              ("errors",
               PList ["Validation timeout (diagram too complex or infinite loop)"]);
              ("warnings", PList []);
              ("diagram_type", PStr (detect_diagram_type "graph TD")) ].
Proof.
  split; [reflexivity|].
  assert (H : fst (validate_diagram env_locked "graph TD" empty_world)
              = inr (Exn PermissionError "Permission denied: '/tmp/tmpk3x9.mmd'"))
    by (vm_compute; reflexivity).
  split; [exact H|]. rewrite H. discriminate.
Qed.

(** C9.  Extraction is idempotent: the lines it returns, joined with
    newlines and extracted again, come back unchanged, the fallback
    message included. *)
Theorem parse_mmdc_errors_idempotent stderr :
  parse_mmdc_errors (join NL (parse_mmdc_errors stderr))
  = parse_mmdc_errors stderr.
Proof.
  rewrite (parse_mmdc_errors_refines stderr). unfold parse_mmdc_errors_spec.
  destruct (extracted stderr) as [|x l] eqn:E; [reflexivity|].
  rewrite <- E. rewrite parse_mmdc_errors_refines.
  unfold parse_mmdc_errors_spec.
  destruct (extracted_fixed (split NL stderr) (split_no_NL stderr)) as [Hnl Hfix].
  fold (extracted stderr) in Hnl, Hfix.
  unfold extracted at 1. rewrite split_join; [|rewrite E; discriminate|exact Hnl].
  rewrite Hfix. rewrite E. reflexivity.
Qed.

(** C10.  Every dict [validate_diagram] returns has exactly the four keys
    valid, errors, warnings and diagram_type, its warnings are the empty
    list, and its errors are non-empty exactly when valid is false. *)
Theorem validate_diagram_well_formed env content w r :
  fst (validate_diagram env content w) = inl r ->
  exists (valid : bool) (errors : list string) (diagram_type : string),
    r = [ ("valid", PBool valid);
          ("errors", PList errors);
          ("warnings", PList []);
          ("diagram_type", PStr diagram_type) ]
    /\ (errors <> [] <-> valid = false).
Proof. apply validate_diagram_shape. Qed.

Lemma validate_diagram_well_formed_witness :
  exists (valid : bool) (errors : list string) (diagram_type : string),
    [ ("valid", PBool false);
      ("errors", PList ["Error: Parse error on line 2:"]);
      ("warnings", PList []);
      ("diagram_type", PStr "flowchart") ]
    = [ ("valid", PBool valid);
        ("errors", PList errors);
        ("warnings", PList []);
        ("diagram_type", PStr diagram_type) ]
    /\ (errors <> [] <-> valid = false).
Proof.
  apply (validate_diagram_well_formed env_rejects "graph TD" empty_world).
  vm_compute. reflexivity.
Defined.

(** * Further properties of the code *)

(** ** The detector *)

Lemma detect_loop_first_match pre k d post line :
  contains k (squeeze line) = true ->
  (forall k', In k' (map fst pre) -> contains k' (squeeze line) = false) ->
  detect_loop (pre ++ (k, d) :: post) line = d.
Proof.
  intros Hk. induction pre as [|[k' d'] pre IH]; intros Hpre; simpl.
  - now rewrite Hk.
  - rewrite (Hpre k') by now left. apply IH.
    intros k'' H. apply Hpre. now right.
Qed.

Lemma detect_loop_range items line :
  In (detect_loop items line) ("unknown" :: map snd items).
Proof.
  induction items as [|[k d] items IH]; simpl; [now left|].
  destruct (contains k (squeeze line)); [right; now left|].
  destruct IH as [IH|IH]; [now left | right; now right].
Qed.

Lemma lstrip_app_space_l u s : all_space u = true -> lstrip (u +:+ s) = lstrip s.
Proof.
  induction u as [|c u IH]; [reflexivity|]. intros H.
  apply andb_true_iff in H as [Hc Hu]. sapp. simpl. rewrite Hc. auto.
Qed.

Lemma rstrip_all_space s : all_space s = true -> rstrip s = EmptyString.
Proof.
  induction s as [|c s IH]; simpl; [reflexivity|].
  intros H. apply andb_true_iff in H as [Hc Hs].
  rewrite (IH Hs), Hc. reflexivity.
Qed.

Lemma rstrip_app_space_r s v : all_space v = true -> rstrip (s +:+ v) = rstrip s.
Proof.
  intros Hv. induction s as [|c s IH]; sapp.
  - now apply rstrip_all_space.
  - simpl. now rewrite IH.
Qed.

Lemma lstrip_app_space_r s v :
  all_space v = true -> rstrip (lstrip (s +:+ v)) = rstrip (lstrip s).
Proof.
  intros Hv. induction s as [|c s IH]; sapp.
  - simpl. rewrite (lstrip_all_space v Hv). reflexivity.
  - simpl. destruct (isspace c); [exact IH|].
    rewrite <- sapp_cons. now apply rstrip_app_space_r.
Qed.

Lemma strip_app_space u s v :
  all_space u = true -> all_space v = true -> strip (u +:+ s +:+ v) = strip s.
Proof.
  intros Hu Hv. unfold strip.
  now rewrite lstrip_app_space_l, lstrip_app_space_r.
Qed.

(** X1.  The table is searched in order: when the first non-empty line,
    normalized, holds a key of the table and none of the keys before it,
    the detector answers the type listed for that key. *)
Theorem detect_first_match content l pre k d post :
  first_nonblank_line content = Some l ->
  type_map = pre ++ (k, d) :: post ->
  contains k (normalized l) = true ->
  (forall k', In k' (map fst pre) -> contains k' (normalized l) = false) ->
  detect_diagram_type content = d.
Proof.
  intros Hl Ht Hk Hpre.
  rewrite (detect_by_first_nonblank_line content l Hl), Ht.
  now apply detect_loop_first_match.
Qed.

Lemma detect_first_match_witness :
  detect_diagram_type
    (String NL "sequenceDiagram" +:+ String NL "  Alice->>Bob: graph")
  = "sequence".
Proof.
  apply (detect_first_match _ "sequenceDiagram"
           [("graph", "flowchart"); ("flowchart", "flowchart")]
           "sequencediagram" "sequence"
           (skipn 3 type_map)).
  - reflexivity.
  - reflexivity.
  - reflexivity.
  - intros k' [<-|[<-|[]]]; reflexivity.
Defined.

(** X2.  Whatever the content, the detector answers one of twelve names:
    the eleven types it can reach and unknown. *)
Theorem detect_range content :
  In (detect_diagram_type content) diagram_types.
Proof.
  pose proof (git_graph_unreachable content) as Hg.
  pose proof (detect_loop_range type_map (first_line content)) as H.
  fold (detect_diagram_type content) in H.
  unfold diagram_types. cbn [type_map map snd In] in H |- *.
  repeat (destruct H as [H|H]; [rewrite <- H; tauto || congruence|]).
  contradiction.
Qed.

(** X3.  Whitespace and blank lines around the content do not count:
    the detector answers the same with or without them. *)
Theorem detect_ignores_margins u content v :
  all_space u = true -> all_space v = true ->
  detect_diagram_type (u +:+ content +:+ v) = detect_diagram_type content.
Proof.
  intros Hu Hv. unfold detect_diagram_type, first_line.
  now rewrite (strip_app_space u content v Hu Hv).
Qed.

Lemma detect_ignores_margins_witness :
  detect_diagram_type
    (String NL (String NL "  ") +:+ "pie title Pets" +:+ String " " (String NL ""))
  = detect_diagram_type "pie title Pets".
Proof. apply detect_ignores_margins; reflexivity. Defined.

(** ** The extractor *)

Lemma extracted_member stderr e :
  In e (extracted stderr) ->
  exists line, In line (split NL stderr) /\ qualifies line = true /\ e = strip line.
Proof.
  unfold extracted. intros H. apply in_map_iff in H as (line & <- & Hin).
  apply filter_In in Hin as [Hin Hq]. now exists line.
Qed.

(** X4.  Every message the extractor returns, the fallback included, is
    trimmed, not empty, a single line, and holds one of the five keywords
    in its lowercased form. *)
Theorem parse_mmdc_errors_messages stderr e :
  In e (parse_mmdc_errors stderr) ->
  strip e = e
  /\ e <> EmptyString
  /\ no_NL e = true
  /\ any_in error_keywords (lower e) = true.
Proof.
  rewrite parse_mmdc_errors_refines. unfold parse_mmdc_errors_spec.
  destruct (extracted stderr) as [|x l] eqn:E.
  - intros [<-|[]]. repeat split; discriminate.
  - rewrite <- E. intros H.
    apply extracted_member in H as (line & Hin & Hq & ->).
    pose proof (split_no_NL stderr) as Hnl. rewrite List.Forall_forall in Hnl.
    pose proof Hq as Hq'. unfold qualifies in Hq'.
    apply andb_true_iff in Hq' as [Hq' _]. apply andb_true_iff in Hq' as [Ht Hk].
    split; [apply strip_idem|]. split; [now destruct (strip line)|].
    split; [now apply no_NL_strip, Hnl|].
    now rewrite any_in_error_keywords_strip.
Qed.

Lemma parse_mmdc_errors_messages_witness :
  strip "Error: Parse error on line 2:" = "Error: Parse error on line 2:"
  /\ "Error: Parse error on line 2:" <> EmptyString
  /\ no_NL "Error: Parse error on line 2:" = true
  /\ any_in error_keywords (lower "Error: Parse error on line 2:") = true.
Proof.
  apply (parse_mmdc_errors_messages
           ("  Error: Parse error on line 2:  " +:+ String NL "...graph TD")).
  vm_compute. now left.
Defined.

Lemma split_app a b :
  split NL (a +:+ String NL b) = split NL a ++ split NL b.
Proof.
  induction a as [|c a IH]; [reflexivity|]. sapp.
  destruct (Ascii.eqb c NL) eqn:Hc.
  - rewrite !split_cons_NL by exact Hc. now rewrite IH.
  - rewrite !split_cons_other by exact Hc. rewrite IH.
    destruct (split NL a) eqn:E; [now apply split_not_nil in E | reflexivity].
Qed.

Lemma extracted_app a b :
  extracted (a +:+ String NL b) = extracted a ++ extracted b.
Proof.
  unfold extracted. now rewrite split_app, List.filter_app, List.map_app.
Qed.

(** X5.  Extraction goes line by line: on two texts joined by a newline it
    returns the messages of the first followed by those of the second; a
    text with no qualifying line adds nothing to the other's messages. *)
Theorem parse_mmdc_errors_app a b :
  (extracted a <> [] -> extracted b <> [] ->
   parse_mmdc_errors (a +:+ String NL b)
   = parse_mmdc_errors a ++ parse_mmdc_errors b)
  /\ (extracted b = [] ->
      parse_mmdc_errors (a +:+ String NL b) = parse_mmdc_errors a)
  /\ (extracted a = [] ->
      parse_mmdc_errors (a +:+ String NL b) = parse_mmdc_errors b).
Proof.
  rewrite !parse_mmdc_errors_refines. unfold parse_mmdc_errors_spec.
  rewrite extracted_app. repeat split.
  - intros Ha Hb. destruct (extracted a) as [|x l]; [congruence|].
    destruct (extracted b) as [|y m]; [congruence|]. reflexivity.
  - intros ->. now rewrite List.app_nil_r.
  - intros ->. reflexivity.
Qed.

Lemma parse_mmdc_errors_app_witness :
  parse_mmdc_errors ("Error: bad arrow" +:+ String NL "  at line 3 (syntax)")
  = parse_mmdc_errors "Error: bad arrow"
    ++ parse_mmdc_errors "  at line 3 (syntax)".
Proof.
  apply (parse_mmdc_errors_app "Error: bad arrow" "  at line 3 (syntax)");
    vm_compute; discriminate.
Defined.

Lemma split_crlf s : Forall2 padded (split NL s) (split NL (crlf s)).
Proof.
  induction s as [|c s IH].
  - repeat constructor. exists EmptyString. now split.
  - unfold crlf in *. cbn [replace].
    destruct (Ascii.eqb c NL) eqn:Hc.
    + rewrite split_cons_NL by exact Hc. sapp.
      rewrite split_cons_other by reflexivity.
      rewrite split_cons_NL by reflexivity. cbn [hd tl].
      constructor; [|exact IH]. exists (String CR EmptyString). now split.
    + rewrite !split_cons_other by exact Hc.
      destruct (split NL s) as [|h t] eqn:E; [now apply split_not_nil in E|].
      inversion IH as [|? h' ? t' (w & Hw & ->) Ht]; subst. cbn [hd tl].
      constructor; [|exact Ht]. exists w. now split.
Qed.

Lemma padded_strip x y : padded x y -> strip y = strip x.
Proof.
  intros (w & Hw & ->).
  now rewrite <- (strip_app_space EmptyString x w eq_refl Hw).
Qed.

Lemma padded_qualifies x y : padded x y -> qualifies y = qualifies x.
Proof.
  intros H. unfold qualifies. rewrite (padded_strip x y H).
  destruct H as (w & Hw & ->). f_equal. f_equal.
  unfold any_in, error_keywords. cbn [existsb]. rewrite lower_app.
  now rewrite !contains_app_space_r
    by (reflexivity || now rewrite all_space_lower).
Qed.

Lemma extracted_crlf s : extracted (crlf s) = extracted s.
Proof.
  unfold extracted. pose proof (split_crlf s) as H.
  induction H as [|x y l l' Hxy _ IH]; [reflexivity|].
  cbn [List.filter]. rewrite (padded_qualifies x y Hxy).
  destruct (qualifies x); [|exact IH].
  cbn [map]. now rewrite (padded_strip x y Hxy), IH.
Qed.

(** X6.  Line ends do not matter to the extractor: a text whose lines end
    in carriage return and newline gives the messages of the same text
    with plain newlines. *)
Theorem parse_mmdc_errors_crlf stderr :
  parse_mmdc_errors (crlf stderr) = parse_mmdc_errors stderr.
Proof.
  rewrite !parse_mmdc_errors_refines. unfold parse_mmdc_errors_spec.
  now rewrite extracted_crlf.
Qed.

(** ** The validator *)

(** The system calls of the [try] block and the locals it leaves: nothing
    when the input file cannot be created; the input file and its write
    when the write or the creation of the output file fails; else both
    files and one run of the renderer. *)
Lemma attempt_events env content w :
  let s' := snd (attempt env content (enter w)) in
  (trace (the_world s') = trace w
   /\ files (the_world s') = files w
   /\ temp_input s' = None /\ temp_output s' = None
   /\ exists e, tempname env ".mmd" = inr e)
  \/ (exists f,
        tempname env ".mmd" = inl f
        /\ trace (the_world s') = trace w ++ [EvCreate f; EvWrite f content]
        /\ files (the_world s') = {[f]} ∪ files w
        /\ temp_output s' = None
        /\ ((temp_input s' = None /\ exists e, write_error env f content = Some e)
            \/ (temp_input s' = Some f /\ write_error env f content = None
                /\ exists e, tempname env ".svg" = inr e)))
  \/ (exists f g,
        tempname env ".mmd" = inl f
        /\ write_error env f content = None
        /\ tempname env ".svg" = inl g
        /\ trace (the_world s')
           = trace w ++ [EvCreate f; EvWrite f content; EvCreate g;
                         EvRun (mmdc_argv f g) 10]
        /\ temp_input s' = Some f /\ temp_output s' = Some g).
Proof.
  run_attempt; rewrite <- ?List.app_assoc; cbn [app];
    first
      [ left; repeat split; eauto; fail
      | right; left; eexists; repeat split; eauto; fail
      | right; left; eexists; split; [eassumption|];
        split; [reflexivity|]; split; [reflexivity|]; split; [reflexivity|];
        eauto 6; fail
      | right; right; eexists _, _; repeat split; eauto; fail ].
Qed.

(** One guarded unlink, whatever becomes of it: it logs at most the unlink
    of its local, removes nothing else and leaves the locals alone. *)
Lemma unlink_if_set_events env temp s :
  exists evs,
    trace (the_world (snd (unlink_if_set env temp s)))
    = trace (the_world s) ++ evs
    /\ (forall ev, In ev evs -> exists p, ev = EvUnlink p /\ temp = Some p)
    /\ files (the_world (snd (unlink_if_set env temp s))) ⊆ files (the_world s)
    /\ temp_input (snd (unlink_if_set env temp s)) = temp_input s
    /\ temp_output (snd (unlink_if_set env temp s)) = temp_output s.
Proof.
  unfold unlink_if_set.
  destruct temp as [p|]; [destruct (truthy p)|];
    try (exists []; cbn; rewrite List.app_nil_r;
         repeat split; [intros ev []|intros q Hq; exact Hq]).
  unfold unlink_missing_ok, on_world, bind, ret, raise, log, set_files. cbn.
  exists [EvUnlink p].
  destruct (decide (p ∈ files (the_world s)));
    [destruct (unlink_error env p)|]; cbn;
    (split; [reflexivity|]); (split; [intros ev [<-|[]]; now exists p|]);
    (split; [|now split]); intros q Hq; try exact Hq.
  now apply elem_of_difference in Hq as [Hq _].
Qed.

(** The [finally] block, whatever becomes of it. *)
Lemma cleanup_events env s :
  exists evs,
    trace (the_world (snd (cleanup env s))) = trace (the_world s) ++ evs
    /\ (forall ev, In ev evs ->
          exists p, ev = EvUnlink p
                    /\ (temp_input s = Some p \/ temp_output s = Some p))
    /\ files (the_world (snd (cleanup env s))) ⊆ files (the_world s).
Proof.
  unfold cleanup, bind.
  destruct (unlink_if_set_events env (temp_input s) s)
    as (ev1 & Ht1 & He1 & Hf1 & _ & Ho1).
  destruct (unlink_if_set env (temp_input s) s) as [[[]|e] s1]; cbn in *.
  - destruct (unlink_if_set_events env (temp_output s1) s1)
      as (ev2 & Ht2 & He2 & Hf2 & _).
    exists (ev1 ++ ev2). rewrite Ht2, Ht1, List.app_assoc.
    split; [reflexivity|]. split.
    + intros ev H. apply in_app_or in H as [H|H].
      * destruct (He1 ev H) as (p & -> & Hp). exists p. auto.
      * destruct (He2 ev H) as (p & -> & Hp). exists p. rewrite <- Ho1. auto.
    + intros q Hq. apply Hf1, Hf2, Hq.
  - exists ev1. split; [exact Ht1|]. split; [|exact Hf1].
    intros ev H. destruct (He1 ev H) as (p & -> & Hp). exists p. auto.
Qed.

(** The system calls of a whole call on content that is not blank: those
    of the [try] block, then unlinks of its locals. *)
Lemma validate_events env content w :
  all_space content = false ->
  exists unl,
    trace (snd (validate_diagram env content w))
    = trace (the_world (snd (attempt env content (enter w)))) ++ unl
    /\ (forall ev, In ev unl ->
          exists p, ev = EvUnlink p
            /\ (temp_input (snd (attempt env content (enter w))) = Some p
                \/ temp_output (snd (attempt env content (enter w))) = Some p))
    /\ files (snd (validate_diagram env content w))
       ⊆ files (the_world (snd (attempt env content (enter w)))).
Proof.
  intros Hc. unfold validate_diagram, try_finally.
  rewrite (not_blank content Hc).
  destruct (attempt env content (enter w)) as [r s']. cbn [snd].
  destruct (cleanup_events env s') as (unl & Ht & Hu & Hf).
  destruct (cleanup env s') as [[[]|e] s'']; cbn in *; now exists unl.
Qed.

(** A call whose [finally] block meets no error ends as its [try] block
    did, and loses exactly the files its locals name. *)
Lemma validate_of_attempt env content w r s' :
  all_space content = false ->
  attempt env content (enter w) = (r, s') ->
  (forall p, temp_input s' = Some p -> unlink_error env p = None) ->
  (forall p, temp_output s' = Some p -> unlink_error env p = None) ->
  fst (validate_diagram env content w) = r
  /\ forall q, q ∈ files (snd (validate_diagram env content w)) <->
       (q ∈ files (the_world s')
        /\ (q ∉ doomed (temp_input s')) /\ (q ∉ doomed (temp_output s'))).
Proof.
  intros Hc Ha Hi Ho. unfold validate_diagram.
  rewrite (not_blank content Hc).
  destruct (cleanup_ok env s' Hi Ho) as (s'' & evs & Hcl & _ & _ & Hfs).
  rewrite (try_finally_ok _ _ _ _ _ _ Ha Hcl). cbn. now split.
Qed.

Ltac attempt_path Hf Hw Hg :=
  unfold_model; rewrite Hf; cbn; rewrite Hw; cbn; rewrite Hg; cbn.

(** The same for a [try] block that got as far as both files. *)
Lemma validate_of_spawned env content w f g r :
  all_space content = false ->
  (exists wd,
     attempt env content (enter w)
     = (r, {| the_world := wd; temp_input := Some f; temp_output := Some g |})) ->
  unlink_error env f = None ->
  unlink_error env g = None ->
  fst (validate_diagram env content w) = r
  /\ (truthy f = true -> f ∉ files (snd (validate_diagram env content w)))
  /\ (truthy g = true -> g ∉ files (snd (validate_diagram env content w))).
Proof.
  intros Hc (wd & Ha) Huf Hug.
  destruct (validate_of_attempt env content w r _ Hc Ha) as [Hr Hfs];
    [now intros p [= <-] | now intros p [= <-] |].
  split; [exact Hr|]. cbn [temp_input temp_output doomed] in Hfs.
  split; intros Ht; rewrite Hfs, Ht, !elem_of_singleton; tauto.
Qed.

(** X7.  When the renderer exits within its ten seconds and cleanup meets
    no error, the result has valid true and no errors if the exit code is
    0, else valid false and the messages extracted from the renderer's
    standard error; diagram_type is the detector's answer either way. *)
Theorem validate_diagram_completed env content w f g millis cp :
  all_space content = false ->
  tempname env ".mmd" = inl f ->
  write_error env f content = None ->
  tempname env ".svg" = inl g ->
  spawn env (mmdc_argv f g) = Finishes millis cp ->
  (millis <= 10 * 1000)%N ->
  unlink_error env f = None ->
  unlink_error env g = None ->
  fst (validate_diagram env content w)
  = inl [ ("valid", PBool (returncode cp =? 0)%Z);
          ("errors",
           PList (if (returncode cp =? 0)%Z then []
                  else parse_mmdc_errors (stderr cp)));
          ("warnings", PList []);
          ("diagram_type", PStr (detect_diagram_type content)) ].
Proof.
  intros Hc Hf Hw Hg Hs Hm Huf Hug.
  apply N.ltb_ge in Hm.
  apply (validate_of_spawned env content w f g); try assumption.
  attempt_path Hf Hw Hg. rewrite Hs. cbn. rewrite Hm. cbn.
  destruct (returncode cp =? 0)%Z; eexists; reflexivity.
Qed.

Lemma validate_diagram_completed_witness :
  fst (validate_diagram env_rejects "graph TD" empty_world)
  = inl [ ("valid", PBool false);
          ("errors", PList ["Error: Parse error on line 2:"]);
          ("warnings", PList []);
          ("diagram_type", PStr "flowchart") ].
Proof.
  apply (validate_diagram_completed env_rejects "graph TD" empty_world
           "/tmp/tmpk3x9.mmd" "/tmp/tmpk3x9.svg" 900
           {| returncode := 1; stdout := "";
              stderr := "Error: Parse error on line 2:" +:+ String NL "  (at node)" |});
    try reflexivity.
  vm_compute. discriminate.
Defined.

(** X8.  When the renderer cannot be started, the exception is turned into
    a result with valid false: a FileNotFoundError (no npx on the PATH)
    gives the message mermaid-cli not available - npx command not found;
    any other exception of class Exception but a timeout gives Validation
    error: followed by the exception's text. *)
Theorem validate_diagram_renderer_raises env content w f g e :
  all_space content = false ->
  tempname env ".mmd" = inl f ->
  write_error env f content = None ->
  tempname env ".svg" = inl g ->
  spawn env (mmdc_argv f g) = Raises e ->
  is_Exception (class_of e) = true ->
  class_of e <> TimeoutExpired ->
  unlink_error env f = None ->
  unlink_error env g = None ->
  fst (validate_diagram env content w)
  = inl [ ("valid", PBool false);
          ("errors",
           PList [match class_of e with
                  | FileNotFoundError =>
                      "mermaid-cli not available - npx command not found"
                  | _ => "Validation error: " +:+ str_of e
                  end]);
          ("warnings", PList []);
          ("diagram_type", PStr (detect_diagram_type content)) ].
Proof.
  intros Hc Hf Hw Hg Hs He Ht Huf Hug.
  apply (validate_of_spawned env content w f g); try assumption.
  attempt_path Hf Hw Hg. rewrite Hs. cbn.
  destruct e as [[] msg]; cbn in *; try discriminate; try congruence;
    eexists; reflexivity.
Qed.

Lemma validate_diagram_renderer_raises_witness :
  fst (validate_diagram env_broken "graph TD" empty_world)
  = inl [ ("valid", PBool false);
          ("errors", PList ["Validation error: Exec format error: 'npx'"]);
          ("warnings", PList []);
          ("diagram_type", PStr (detect_diagram_type "graph TD")) ].
Proof.
  apply (validate_diagram_renderer_raises env_broken "graph TD" empty_world
           "/tmp/tmpk3x9.mmd" "/tmp/tmpk3x9.svg"
           (Exn OSError "Exec format error: 'npx'"));
    try reflexivity.
  discriminate.
Defined.

(** X9.  When the input file cannot be created, the call still returns a
    result with valid false and one error message, and the world is as it
    was: no file created, no subprocess run, nothing unlinked. *)
Theorem validate_diagram_no_tempfile env content w e :
  all_space content = false ->
  tempname env ".mmd" = inr e ->
  is_Exception (class_of e) = true ->
  exists message,
    validate_diagram env content w
    = (inl [ ("valid", PBool false);
             ("errors", PList [message]);
             ("warnings", PList []);
             ("diagram_type", PStr (detect_diagram_type content)) ],
       w).
Proof.
  intros Hc Hf He. unfold validate_diagram. rewrite (not_blank content Hc).
  unfold try_finally, cleanup, unlink_if_set. unfold_model. rewrite Hf.
  destruct w as [fs tr].
  destruct e as [[] msg]; cbn in *; try discriminate; eexists; reflexivity.
Qed.

Lemma validate_diagram_no_tempfile_witness :
  exists message,
    validate_diagram
      {| tempname := fun _ => inr (Exn OSError "No space left on device");
         write_error := write_error env_ok;
         spawn := spawn env_ok;
         spawn_files := spawn_files env_ok;
         unlink_error := unlink_error env_ok;
         stdin_text := stdin_text env_ok;
         read_file := read_file env_ok |}
      "graph TD" empty_world
    = (inl [ ("valid", PBool false);
             ("errors", PList [message]);
             ("warnings", PList []);
             ("diagram_type", PStr (detect_diagram_type "graph TD")) ],
       empty_world).
Proof.
  apply (validate_diagram_no_tempfile _ "graph TD" empty_world
           (Exn OSError "No space left on device")); reflexivity.
Defined.

(** X10.  An interrupt while the renderer runs is not turned into a
    result: it leaves [validate_diagram] as an exception, after the
    [finally] block has removed both temporary files. *)
Theorem validate_diagram_interrupted env content w f g e :
  all_space content = false ->
  tempname env ".mmd" = inl f ->
  write_error env f content = None ->
  tempname env ".svg" = inl g ->
  spawn env (mmdc_argv f g) = Raises e ->
  is_Exception (class_of e) = false ->
  truthy f = true ->
  truthy g = true ->
  unlink_error env f = None ->
  unlink_error env g = None ->
  fst (validate_diagram env content w) = inr e
  /\ (f ∉ files (snd (validate_diagram env content w)))
  /\ (g ∉ files (snd (validate_diagram env content w))).
Proof.
  intros Hc Hf Hw Hg Hs He Htf Htg Huf Hug.
  destruct (validate_of_spawned env content w f g (inr e) Hc) as (Hr & Hff & Hfg);
    try assumption; [|now auto].
  attempt_path Hf Hw Hg. rewrite Hs. cbn.
  destruct e as [[] msg]; cbn in *; try discriminate; eexists; reflexivity.
Qed.

Lemma validate_diagram_interrupted_witness :
  fst (validate_diagram env_interrupted "graph TD" empty_world)
  = inr (Exn KeyboardInterrupt "")
  /\ ("/tmp/tmpk3x9.mmd"
       ∉ files (snd (validate_diagram env_interrupted "graph TD" empty_world)))
  /\ ("/tmp/tmpk3x9.svg"
       ∉ files (snd (validate_diagram env_interrupted "graph TD" empty_world))).
Proof.
  apply (validate_diagram_interrupted env_interrupted "graph TD" empty_world);
    reflexivity.
Defined.

(** What the [try] block lets out: never an exception of class Exception. *)
Lemma attempt_raises env content s :
  match attempt env content s with
  | (inr e, _) => is_Exception (class_of e) = false
  | (inl _, _) => True
  end.
Proof. run_attempt; first [exact I | reflexivity]. Qed.

(** X11.  As long as no unlink meets an error, no exception of class
    Exception leaves [validate_diagram]: every failure of that class,
    at whatever step, comes back as a result. *)
Theorem validate_diagram_catches env content w e :
  (forall p, unlink_error env p = None) ->
  fst (validate_diagram env content w) = inr e ->
  is_Exception (class_of e) = false.
Proof.
  intros Hu. destruct (all_space content) eqn:Hc.
  - unfold validate_diagram. rewrite (blank content Hc). discriminate.
  - pose proof (attempt_raises env content (enter w)) as Ha.
    destruct (attempt env content (enter w)) as [r s'] eqn:E.
    destruct (validate_of_attempt env content w r s' Hc E) as [-> _];
      [intros; apply Hu | intros; apply Hu |].
    now intros ->.
Qed.

Lemma validate_diagram_catches_witness :
  is_Exception (class_of (Exn KeyboardInterrupt "")) = false.
Proof.
  apply (validate_diagram_catches env_interrupted "graph TD" empty_world).
  - intros p. reflexivity.
  - vm_compute. reflexivity.
Defined.

(** X12.  Whatever the outcome of the validation, the diagram_type of a
    returned result is the detector's answer on the content as given. *)
Theorem validate_diagram_type env content w r :
  fst (validate_diagram env content w) = inl r ->
  dict_get r "diagram_type" = Some (PStr (detect_diagram_type content)).
Proof.
  unfold validate_diagram. destruct (all_space content) eqn:Hc.
  - rewrite (blank content Hc). cbn. intros [= <-].
    now rewrite (detect_blank content Hc).
  - rewrite (not_blank content Hc). unfold try_finally.
    pose proof (attempt_shape env content (enter w)) as Hs.
    destruct (attempt env content (enter w)) as [[r'|e] s'];
      destruct (cleanup env s') as [[[]|e'] s'']; cbn; intros [= <-].
    now destruct Hs as (valid & errors & -> & _).
Qed.

Lemma validate_diagram_type_witness :
  dict_get (result_dict false
              ["Validation timeout (diagram too complex or infinite loop)"]
              "flowchart")
           "diagram_type"
  = Some (PStr (detect_diagram_type "graph TD")).
Proof.
  apply (validate_diagram_type env_hangs "graph TD" empty_world).
  vm_compute. reflexivity.
Defined.

(** X13.  A write of the content that raises leaves the input file
    behind: the file was created, its name never reached the local the
    [finally] block reads, so the call ends with the file on disk and
    without a single unlink. *)
Theorem validate_diagram_write_error env content w f e :
  all_space content = false ->
  tempname env ".mmd" = inl f ->
  write_error env f content = Some e ->
  new_events w (snd (validate_diagram env content w))
  = [EvCreate f; EvWrite f content]
  /\ f ∈ files (snd (validate_diagram env content w)).
Proof.
  intros Hc Hf Hw. unfold validate_diagram. rewrite (not_blank content Hc).
  unfold try_finally, cleanup, unlink_if_set, new_events. unfold_model.
  rewrite Hf. cbn. rewrite Hw.
  destruct e as [[] msg]; cbn;
    (split; [rewrite <- List.app_assoc; apply drop_app_length|]);
    apply elem_of_union_l; now apply elem_of_singleton.
Qed.

Lemma validate_diagram_write_error_witness :
  new_events empty_world
    (snd (validate_diagram env_unwritable "graph TD" empty_world))
  = [EvCreate "/tmp/tmpk3x9.mmd"; EvWrite "/tmp/tmpk3x9.mmd" "graph TD"]
  /\ "/tmp/tmpk3x9.mmd"
       ∈ files (snd (validate_diagram env_unwritable "graph TD" empty_world)).
Proof.
  apply (validate_diagram_write_error env_unwritable "graph TD" empty_world
           "/tmp/tmpk3x9.mmd"
           (Exn UnicodeEncodeError "codec can't encode character"));
    reflexivity.
Defined.

(** X14.  An unlink error is not swallowed.  When the input file is still
    there at cleanup and its unlink meets an error, that error leaves
    [validate_diagram] whatever the [try] block had produced; the input
    file stays, and the unlink of the output file is not even tried. *)
Theorem validate_diagram_unlink_error env content w f g e :
  all_space content = false ->
  tempname env ".mmd" = inl f ->
  write_error env f content = None ->
  tempname env ".svg" = inl g ->
  truthy f = true ->
  (forall fs, f ∈ fs -> f ∈ spawn_files env (mmdc_argv f g) fs) ->
  unlink_error env f = Some e ->
  fst (validate_diagram env content w) = inr e
  /\ new_events w (snd (validate_diagram env content w))
     = [EvCreate f; EvWrite f content; EvCreate g;
        EvRun (mmdc_argv f g) 10; EvUnlink f]
  /\ f ∈ files (snd (validate_diagram env content w)).
Proof.
  intros Hc Hf Hw Hg Htf Hkeep Hue.
  assert (Hbase : f ∈ ({[g]} ∪ ({[f]} ∪ files w) : gset string)).
  { apply elem_of_union_r, elem_of_union_l. now apply elem_of_singleton. }
  pose proof (Hkeep _ Hbase) as Hkept.
  unfold validate_diagram. rewrite (not_blank content Hc).
  unfold try_finally, cleanup, unlink_if_set, unlink_missing_ok, new_events.
  attempt_path Hf Hw Hg.
  repeat (cbn; try case_oracle); rewrite ?Htf; cbn;
    match goal with
    | |- context [decide ?P] => destruct (decide P) as [Hin|Hout]
    end; try contradiction;
    rewrite Hue; cbn;
    (split; [reflexivity|]);
    (split; [rewrite <- !List.app_assoc; apply drop_app_length | assumption]).
Qed.

Lemma validate_diagram_unlink_error_witness :
  fst (validate_diagram env_locked "graph TD" empty_world)
  = inr (Exn PermissionError "Permission denied: '/tmp/tmpk3x9.mmd'")
  /\ new_events empty_world
       (snd (validate_diagram env_locked "graph TD" empty_world))
     = [EvCreate "/tmp/tmpk3x9.mmd"; EvWrite "/tmp/tmpk3x9.mmd" "graph TD";
        EvCreate "/tmp/tmpk3x9.svg";
        EvRun (mmdc_argv "/tmp/tmpk3x9.mmd" "/tmp/tmpk3x9.svg") 10;
        EvUnlink "/tmp/tmpk3x9.mmd"]
  /\ "/tmp/tmpk3x9.mmd"
       ∈ files (snd (validate_diagram env_locked "graph TD" empty_world)).
Proof.
  apply (validate_diagram_unlink_error env_locked "graph TD" empty_world);
    try reflexivity.
  intros fs H. exact H.
Defined.

(** The system calls of a whole call, in two parts. *)
Lemma validate_new_events env content w :
  all_space content = false ->
  exists tried unl,
    trace (the_world (snd (attempt env content (enter w)))) = trace w ++ tried
    /\ new_events w (snd (validate_diagram env content w)) = tried ++ unl
    /\ forall ev, In ev unl ->
         exists p, ev = EvUnlink p
           /\ (temp_input (snd (attempt env content (enter w))) = Some p
               \/ temp_output (snd (attempt env content (enter w))) = Some p).
Proof.
  intros Hc. destruct (validate_events env content w Hc) as (unl & Ht & Hu & _).
  assert (Ha : exists tried,
             trace (the_world (snd (attempt env content (enter w))))
             = trace w ++ tried).
  { pose proof (attempt_events env content w) as A. cbv zeta in A.
    destruct A as [(H & _)|[(f & _ & H & _)|(f & g & _ & _ & _ & H & _)]].
    - exists []. rewrite List.app_nil_r. exact H.
    - eexists. exact H.
    - eexists. exact H. }
  destruct Ha as (tried & Ha). exists tried, unl.
  split; [exact Ha|]. split; [|exact Hu].
  unfold new_events. rewrite Ht, Ha, <- List.app_assoc.
  apply drop_app_length.
Qed.

(** X15.  The only subprocess a call ever starts is the mermaid renderer,
    through npx, on the two temporary files of that call, with a timeout
    of ten seconds; it is started at most once, after the content has been
    written unchanged to the input file, and only unlinks follow it. *)
Theorem validate_diagram_runs env content w argv t :
  In (EvRun argv t) (new_events w (snd (validate_diagram env content w))) ->
  t = 10%N
  /\ exists f g unl,
       tempname env ".mmd" = inl f
       /\ tempname env ".svg" = inl g
       /\ argv = ["npx"; "-y"; "@mermaid-js/mermaid-cli@latest";
                  "-i"; f; "-o"; g]
       /\ new_events w (snd (validate_diagram env content w))
          = [EvCreate f; EvWrite f content; EvCreate g; EvRun argv 10] ++ unl
       /\ forallb is_unlink unl = true.
Proof.
  destruct (all_space content) eqn:Hc.
  { unfold validate_diagram, new_events. rewrite (blank content Hc). cbn.
    rewrite drop_all. intros []. }
  destruct (validate_new_events env content w Hc) as (tried & unl & Ha & -> & Hu).
  assert (Hunl : forallb is_unlink unl = true).
  { apply forallb_forall. intros ev H. now destruct (Hu ev H) as (p & -> & _). }
  intros H. apply in_app_or in H as [H|H];
    [|rewrite forallb_forall in Hunl; apply Hunl in H; discriminate].
  pose proof (attempt_events env content w) as A. cbv zeta in A.
  destruct A as [(E & _)|[(f & _ & E & _)|(f & g & Hf & _ & Hg & E & _)]];
    rewrite Ha in E.
  - rewrite <- (List.app_nil_r (trace w)) in E at 2.
    apply app_inv_head in E. subst tried. destruct H.
  - apply app_inv_head in E. subst tried.
    destruct H as [H|[H|[]]]; discriminate.
  - apply app_inv_head in E. subst tried.
    destruct H as [H|[H|[H|[H|[]]]]]; try discriminate.
    injection H as <- <-. split; [reflexivity|].
    exists f, g, unl. now repeat split.
Qed.

Lemma validate_diagram_runs_witness :
  10%N = 10%N
  /\ exists f g unl,
       tempname env_rejects ".mmd" = inl f
       /\ tempname env_rejects ".svg" = inl g
       /\ mmdc_argv "/tmp/tmpk3x9.mmd" "/tmp/tmpk3x9.svg"
          = ["npx"; "-y"; "@mermaid-js/mermaid-cli@latest"; "-i"; f; "-o"; g]
       /\ new_events empty_world
            (snd (validate_diagram env_rejects "graph TD" empty_world))
          = [EvCreate f; EvWrite f "graph TD"; EvCreate g;
             EvRun (mmdc_argv "/tmp/tmpk3x9.mmd" "/tmp/tmpk3x9.svg") 10] ++ unl
       /\ forallb is_unlink unl = true.
Proof.
  apply (validate_diagram_runs env_rejects "graph TD" empty_world).
  vm_compute. do 3 right. now left.
Defined.

(** X16.  A call unlinks nothing but what it created: every path it
    unlinks is a temporary file created earlier in the same call. *)
Theorem validate_diagram_unlinks_own env content w p :
  In (EvUnlink p) (new_events w (snd (validate_diagram env content w))) ->
  created w (snd (validate_diagram env content w)) p.
Proof.
  unfold created. fold (new_events w (snd (validate_diagram env content w))).
  destruct (all_space content) eqn:Hc.
  { unfold validate_diagram, new_events. rewrite (blank content Hc). cbn.
    rewrite drop_all. intros []. }
  destruct (validate_new_events env content w Hc) as (tried & unl & Ha & -> & Hu).
  intros H. apply in_or_app. left.
  pose proof (attempt_events env content w) as A. cbv zeta in A.
  destruct A as [(E & _ & Hi & Ho & _)
                |[(f & _ & E & _ & Ho & Hi)|(f & g & _ & _ & _ & E & Hi & Ho)]];
    rewrite Ha in E.
  - rewrite <- (List.app_nil_r (trace w)) in E at 2.
    apply app_inv_head in E. subst tried.
    apply in_app_or in H as [[]|H].
    destruct (Hu _ H) as (q & _ & [Hq|Hq]); congruence.
  - apply app_inv_head in E. subst tried.
    apply in_app_or in H as [H|H].
    + destruct H as [H|[H|[]]]; discriminate.
    + destruct (Hu _ H) as (q & [= <-] & [Hq|Hq]); [|congruence].
      destruct Hi as [(Hi & _)|(Hi & _)]; [congruence|].
      rewrite Hi in Hq. injection Hq as <-. now left.
  - apply app_inv_head in E. subst tried.
    apply in_app_or in H as [H|H].
    + destruct H as [H|[H|[H|[H|[]]]]]; discriminate.
    + destruct (Hu _ H) as (q & [= <-] & [Hq|Hq]).
      * rewrite Hi in Hq. injection Hq as <-. now left.
      * rewrite Ho in Hq. injection Hq as <-. do 2 right. now left.
Qed.

Lemma validate_diagram_unlinks_own_witness :
  created empty_world
    (snd (validate_diagram env_hangs "graph TD" empty_world))
    "/tmp/tmpk3x9.svg".
Proof.
  apply (validate_diagram_unlinks_own env_hangs "graph TD" empty_world).
  vm_compute. do 5 right. now left.
Defined.

(** ** The command line *)

(** A [try] block that returns valid true has run the renderer to a zero
    exit code within its time. *)
Lemma attempt_valid env content s :
  match attempt env content s with
  | (inl r, _) =>
      dict_get r "valid" = Some (PBool true) ->
      r = result_dict true [] (detect_diagram_type content)
      /\ exists f g millis cp,
           tempname env ".mmd" = inl f
           /\ write_error env f content = None
           /\ tempname env ".svg" = inl g
           /\ spawn env (mmdc_argv f g) = Finishes millis cp
           /\ (millis <= 10 * 1000)%N
           /\ returncode cp = 0%Z
  | (inr _, _) => True
  end.
Proof.
  run_attempt; try exact I; intros H; try discriminate H.
  split; [reflexivity|].
  repeat match goal with
         | H : (_ <? _)%N = false |- _ => apply N.ltb_ge in H
         | H : (_ =? _)%Z = true |- _ => apply Z.eqb_eq in H
         end.
  eexists _, _, _, _. repeat split; eassumption.
Qed.

(** What [main] prints and how it ends when the arguments give it no
    content: nothing on standard output, and exit code 2 unless the read
    was interrupted. *)
Lemma parse_arguments_early env argv p :
  parse_arguments env argv = inr p ->
  out p = ""
  /\ err p <> ""
     /\ status p = Exit 2
     \/ out p = "" /\ exists e, status p = Traceback e.
Proof.
  unfold parse_arguments.
  destruct argv as [|prog [|arg rest]]; try (intros [= <-]; left; now repeat split).
  destruct (String.eqb arg "--stdin"); [discriminate|].
  destruct (read_file env arg) as [content|[[] msg]]; [discriminate|..];
    intros [= <-]; cbn;
    first [ left; repeat split; discriminate
          | right; split; [reflexivity|eauto] ].
Qed.

(** How [report] can end: exit code 0 or 1, or a traceback. *)
Lemma report_status env content w :
  status (fst (report env content w)) = Exit 0
  \/ status (fst (report env content w)) = Exit 1
  \/ exists e, status (fst (report env content w)) = Traceback e.
Proof.
  unfold report.
  destruct (validate_diagram env content w) as [[r|e] w']; cbn; [|eauto].
  destruct (dict_get r "valid") as [v|]; cbn; [|eauto].
  destruct (pytruthy v); cbn; auto.
Qed.

(** X17.  Exit code 0 is earned: a run that ends with it had content that
    is not blank, wrote it to the input file, ran the renderer on it, saw
    the renderer exit with code 0 within ten seconds, and printed the
    result with valid true, no errors and the detected type. *)
Theorem main_exit_0 env argv w :
  status (fst (main env argv w)) = Exit 0 ->
  exists content f g millis cp,
    parse_arguments env argv = inl content
    /\ all_space content = false
    /\ tempname env ".mmd" = inl f
    /\ write_error env f content = None
    /\ tempname env ".svg" = inl g
    /\ spawn env (mmdc_argv f g) = Finishes millis cp
    /\ (millis <= 10 * 1000)%N
    /\ returncode cp = 0%Z
    /\ out (fst (main env argv w))
       = print (Json.dumps (Some 2)
                  [ ("valid", PBool true);
                    ("errors", PList []);
                    ("warnings", PList []);
                    ("diagram_type", PStr (detect_diagram_type content)) ]).
Proof.
  unfold main.
  destruct (parse_arguments env argv) as [content|early] eqn:Hp.
  2: { destruct (parse_arguments_early env argv early Hp)
         as [(_ & _ & H)|(_ & e & H)]; cbn; rewrite H; discriminate. }
  unfold report, validate_diagram.
  destruct (all_space content) eqn:Hc.
  { rewrite (blank content Hc). cbn. discriminate. }
  rewrite (not_blank content Hc). unfold try_finally.
  pose proof (attempt_valid env content (enter w)) as Hv.
  pose proof (attempt_shape env content (enter w)) as Hs.
  destruct (attempt env content (enter w)) as [[r|e] s'];
    destruct (cleanup env s') as [[[]|e'] s'']; cbn; try discriminate.
  destruct Hs as (valid & errors & -> & _). cbn in *.
  destruct valid; cbn; [|discriminate]. intros _.
  destruct (Hv eq_refl) as (Hr & f & g & millis & cp & H).
  exists content, f, g, millis, cp.
  split; [reflexivity|]. split; [exact Hc|].
  unfold result_dict in Hr. injection Hr as ->.
  destruct H as (? & ? & ? & ? & ? & ?).
  repeat split; assumption || reflexivity.
Qed.

Lemma main_exit_0_witness :
  exists content f g millis cp,
    parse_arguments env_ok ["validate_mermaid.py"; "--stdin"] = inl content
    /\ all_space content = false
    /\ tempname env_ok ".mmd" = inl f
    /\ write_error env_ok f content = None
    /\ tempname env_ok ".svg" = inl g
    /\ spawn env_ok (mmdc_argv f g) = Finishes millis cp
    /\ (millis <= 10 * 1000)%N
    /\ returncode cp = 0%Z
    /\ out (fst (main env_ok ["validate_mermaid.py"; "--stdin"] empty_world))
       = print (Json.dumps (Some 2)
                  [ ("valid", PBool true);
                    ("errors", PList []);
                    ("warnings", PList []);
                    ("diagram_type", PStr (detect_diagram_type content)) ]).
Proof.
  apply (main_exit_0 env_ok ["validate_mermaid.py"; "--stdin"] empty_world).
  vm_compute. reflexivity.
Defined.

(** X18.  Exit code 2 means that nothing was attempted: the arguments
    gave no content, standard output is empty, standard error is not, and
    the world is as it was - no temporary file, no subprocess. *)
Theorem main_exit_2 env argv w :
  status (fst (main env argv w)) = Exit 2 ->
  parse_arguments env argv = inr (fst (main env argv w))
  /\ out (fst (main env argv w)) = ""
  /\ err (fst (main env argv w)) <> ""
  /\ snd (main env argv w) = w.
Proof.
  unfold main.
  destruct (parse_arguments env argv) as [content|early] eqn:Hp.
  - intros H. exfalso.
    destruct (report_status env content w) as [E|[E|(e & E)]];
      rewrite E in H; discriminate.
  - cbn. intros H.
    destruct (parse_arguments_early env argv early Hp)
      as [(Ho & He & _)|(_ & e & E)]; [now repeat split|].
    rewrite E in H. discriminate.
Qed.

Lemma main_exit_2_witness :
  parse_arguments env_ok ["validate_mermaid.py"]
  = inr (fst (main env_ok ["validate_mermaid.py"] empty_world))
  /\ out (fst (main env_ok ["validate_mermaid.py"] empty_world)) = ""
  /\ err (fst (main env_ok ["validate_mermaid.py"] empty_world)) <> ""
  /\ snd (main env_ok ["validate_mermaid.py"] empty_world) = empty_world.
Proof.
  apply (main_exit_2 env_ok ["validate_mermaid.py"] empty_world).
  reflexivity.
Defined.

(** X19.  An input file that cannot be read is reported on standard error
    as one line of JSON, with valid false and the message File not found:
    and the path when the file is missing, Error reading file: and the
    exception's text otherwise; the run exits with code 2, prints nothing
    on standard output and validates nothing. *)
Theorem main_unreadable_file env prog path rest w e :
  String.eqb path "--stdin" = false ->
  read_file env path = inr e ->
  is_Exception (class_of e) = true ->
  main env (prog :: path :: rest) w
  = ({| out := "";
        err := print (Json.dumps None
                 [ ("valid", PBool false);
                   ("errors",
                    PList [match class_of e with
                           | FileNotFoundError => "File not found: " +:+ path
                           | _ => "Error reading file: " +:+ str_of e
                           end]);
                   ("warnings", PList []);
                   ("diagram_type", PStr "unknown") ]);
        status := Exit 2 |},
     w).
Proof.
  intros Hp Hr He. unfold main, parse_arguments. rewrite Hp, Hr.
  destruct e as [[] msg]; cbn in *; try discriminate; reflexivity.
Qed.

Lemma main_unreadable_file_witness :
  main env_broken ["validate_mermaid.py"; "d.mmd"] empty_world
  = ({| out := "";
        err := print (Json.dumps None
                 [ ("valid", PBool false);
                   ("errors",
                    PList ["Error reading file: Permission denied: 'd.mmd'"]);
                   ("warnings", PList []);
                   ("diagram_type", PStr "unknown") ]);
        status := Exit 2 |},
     empty_world).
Proof.
  apply (main_unreadable_file env_broken "validate_mermaid.py" "d.mmd" []
           empty_world (Exn PermissionError "Permission denied: 'd.mmd'"));
    reflexivity.
Defined.

(** ** What is printed *)

Lemma plain_text_app a b : plain_text (a +:+ b) = plain_text a && plain_text b.
Proof.
  induction a as [|c a IH]; [reflexivity|]. sapp. simpl.
  now rewrite IH, andb_assoc.
Qed.

Lemma escape_char_plain c : plain_text (Json.escape_char c) = true.
Proof. destruct c as [[] [] [] [] [] [] [] []]; reflexivity. Qed.

Lemma escape_plain s : plain_text (Json.escape s) = true.
Proof.
  induction s as [|c s IH]; [reflexivity|]. cbn [Json.escape].
  now rewrite plain_text_app, escape_char_plain, IH.
Qed.

Lemma dumps_str_plain s : plain_text (Json.dumps_str s) = true.
Proof.
  unfold Json.dumps_str. now rewrite !plain_text_app, escape_plain.
Qed.

Lemma spaces_plain n : plain_text (Json.spaces n) = true.
Proof. induction n as [|n IH]; [reflexivity|]. exact IH. Qed.

Lemma items_plain sep l :
  plain_text sep = true ->
  Forall (fun x => plain_text x = true) l ->
  plain_text (Json.items sep l) = true.
Proof.
  intros Hsep. induction 1 as [|x l Hx Hl IH]; [reflexivity|].
  destruct l as [|y l]; [exact Hx|].
  change (Json.items sep (x :: y :: l))
    with (x +:+ sep +:+ Json.items sep (y :: l)).
  now rewrite !plain_text_app, Hx, Hsep, IH.
Qed.

Lemma container_plain indent level opening closing l :
  plain_text opening = true -> plain_text closing = true ->
  Forall (fun x => plain_text x = true) l ->
  plain_text (Json.container indent level opening closing l) = true.
Proof.
  intros Ho Hc Hl. unfold Json.container.
  destruct l as [|x l]; [now rewrite plain_text_app, Ho, Hc|].
  destruct indent as [n|].
  - cbv zeta. rewrite !plain_text_app, Ho, Hc, !spaces_plain.
    rewrite items_plain; [reflexivity| |exact Hl].
    now rewrite !plain_text_app, spaces_plain.
  - rewrite !plain_text_app, Ho, Hc. now rewrite items_plain.
Qed.

Lemma dumps_plain indent d : plain_text (Json.dumps indent d) = true.
Proof.
  unfold Json.dumps. apply container_plain; try reflexivity.
  apply List.Forall_forall. intros x Hx.
  apply in_map_iff in Hx as ([k v] & <- & _). cbn [fst snd].
  rewrite !plain_text_app, dumps_str_plain. cbn.
  destruct v as [[]|s|l]; cbn [Json.dumps_val]; try reflexivity.
  - apply dumps_str_plain.
  - apply container_plain; try reflexivity.
    apply List.Forall_forall. intros y Hy.
    apply in_map_iff in Hy as (z & <- & _). apply dumps_str_plain.
Qed.

Lemma print_plain s : plain_text s = true -> plain_text (print s) = true.
Proof. intros H. unfold print. now rewrite plain_text_app, H. Qed.

(** X20.  Whatever the content, the renderer's messages or the file name,
    all that [main] prints, on either stream, is printable ASCII and
    newlines: the JSON text escapes every other character. *)
Theorem main_prints_plain env argv w :
  plain_text (out (fst (main env argv w))) = true
  /\ plain_text (err (fst (main env argv w))) = true.
Proof.
  unfold main, parse_arguments.
  assert (Hr : forall content,
             plain_text (out (fst (report env content w))) = true
             /\ plain_text (err (fst (report env content w))) = true).
  { intros content. unfold report.
    destruct (validate_diagram env content w) as [[r|e] w']; [|now split].
    destruct (dict_get r "valid"); cbn -[Json.dumps print];
      split; try reflexivity; apply print_plain, dumps_plain. }
  destruct argv as [|prog [|arg rest]]; try (now split).
  destruct (String.eqb arg "--stdin"); [apply Hr|].
  destruct (read_file env arg) as [content|[[] msg]]; [apply Hr|..];
    cbn -[Json.dumps print]; split; try reflexivity;
    apply print_plain, dumps_plain.
Qed.
